(** * Convolutional-Neural-Networks: architecture wiring, model factory and
      TFLite inference driver

    A shallow embedding of [utils/GoogLeNet.py], [utils/model.py] and
    [infer_tflite.py].

    The repository's own code is layer wiring: every statement is a call
    into the Keras functional API, which creates one node of the layer graph
    per call and infers the static shape of the node's output, raising
    [ValueError] when a shape is impossible.  [Module Keras] is the model of
    that API which the embedding of the repository's functions is written
    against: symbolic tensors carrying a static shape, the graph context
    every layer call extends, and the shape rules of tf.keras 2.x
    ([conv_utils.conv_output_length], [Concatenate.build],
    [Dense.__init__], ...).  Weights, activations' values and training are
    outside the model.

    Python float literals (dropout rates, learning rates, loss weights) are
    written as the decimal rationals they denote. *)

From Stdlib Require Import ZArith List String QArith Bool Lia.
Import ListNotations.
Close Scope Q_scope.
Open Scope string_scope.
Open Scope list_scope.
Open Scope Z_scope.

(** ** Exceptions and results *)

Inductive exn : Type :=
| ValueError (msg : string)
| IndexError (msg : string)
| Exception (msg : string).

Inductive result (A : Type) : Type :=
| OK (a : A)
| Raise (e : exn).
Arguments OK {A} a.
Arguments Raise {A} e.

(** ** The Keras functional API *)

Module Keras.

(** A static dimension: [None] is Python's [None] (unknown, e.g. the batch). *)
Definition dim := option Z.
Definition shape := list dim.

Inductive padding : Type := valid | same.
Inductive activation : Type := linear | relu | softmax.

Inductive init_class : Type := random_uniform | glorot_uniform.
(** [kernel_initializer=random_uniform] passes the class itself,
    [initializer(seed=0)] an instance. *)
Inductive initializer : Type :=
| InitClass (c : init_class)
| InitSeed (c : init_class) (seed : Z).

Inductive layer : Type :=
| LInput (s : list Z)
| LConv2D (filters : Z) (kernel_size strides : Z * Z) (pad : padding)
          (act : activation) (kernel_initializer : initializer)
| LMaxPooling2D (pool_size strides : Z * Z) (pad : padding)
| LAveragePooling2D (pool_size strides : Z * Z) (pad : padding)
| LFlatten
| LDropout (rate : Q)
| LDense (units : Z) (act : activation) (name : option string)
         (kernel_initializer : initializer)
| LConcatenate (axis : Z).

(** A symbolic tensor: the layer call that produced it (its Keras history),
    the tensors that call consumed, and its static shape. *)
Record KTensor : Type := mkTensor {
  kt_id : nat;
  kt_layer : layer;
  kt_inbound : list nat;
  kt_shape : shape
}.

(** The graph context every layer call extends: the tensors created so
    far, in creation order. *)
Definition Graph := list KTensor.

(** Layer calls: state passing over the graph context, with exceptions. *)
Definition K (A : Type) : Type := Graph -> result (A * Graph).

Definition ret {A} (a : A) : K A := fun g => OK (a, g).
Definition raise {A} (e : exn) : K A := fun _ => Raise e.
Definition bind {A B} (m : K A) (f : A -> K B) : K B :=
  fun g => match m g with
           | OK (a, g') => f a g'
           | Raise e => Raise e
           end.

Declare Scope keras_scope.
Delimit Scope keras_scope with keras.
Notation "x <- m ;; k" := (bind m (fun x => k))
  (at level 100, m at next level, right associativity) : keras_scope.
Open Scope keras_scope.

Definition add_node (l : layer) (inbound : list KTensor) (s : shape) : K KTensor :=
  fun g => let t := mkTensor (List.length g) l (map kt_id inbound) s in
           OK (t, g ++ [t]).

(** [conv_utils.conv_output_length] (dilation 1); [/] is Python's [//]. *)
Definition conv_output_length (input_length : dim) (filter_size : Z)
           (pad : padding) (stride : Z) : dim :=
  match input_length with
  | None => None
  | Some n =>
      let output_length :=
        match pad with
        | same => n
        | valid => n - filter_size + 1
        end in
      Some ((output_length + stride - 1) / stride)
  end.

(** A computed spatial size must be positive when it is known. *)
Definition dim_ok (d : dim) : bool :=
  match d with
  | None => true
  | Some n => 0 <? n
  end.

(** A [valid] window larger than its input is rejected (the size computed
    for its output is not positive); a [same]-padded layer accepts every
    input, an empty one included. *)
Definition size_ok (pad : padding) (d : dim) : bool :=
  match pad with
  | same => true
  | valid => dim_ok d
  end.

Definition pair_pos (p : Z * Z) : bool := (0 <? fst p) && (0 <? snd p).

Definition Input (s : list Z) : K KTensor :=
  if forallb (fun n => 0 <=? n) s
  then add_node (LInput s) [] (None :: map Some s)
  else raise (ValueError "Dimension must be >= 0").

Definition windowed (l : layer) (channels : dim -> dim)
           (window strides : Z * Z) (pad : padding) (X : KTensor) : K KTensor :=
  if negb (pair_pos window && pair_pos strides)
  then raise (ValueError "window and strides must be positive")
  else
    match kt_shape X with
    | [b; h; w; c] =>
        let h' := conv_output_length h (fst window) pad (fst strides) in
        let w' := conv_output_length w (snd window) pad (snd strides) in
        if size_ok pad h' && size_ok pad w'
        then add_node l [X] [b; h'; w'; channels c]
        else raise (ValueError "Negative dimension size: output is <= 0 due to downsampling")
    | _ => raise (ValueError "expected ndim=4")
    end.

Definition Conv2D (filters : Z) (kernel_size strides : Z * Z) (pad : padding)
           (act : activation) (kernel_initializer : initializer)
           (X : KTensor) : K KTensor :=
  if filters <=? 0
  then raise (ValueError "Invalid value for argument filters, expected a strictly positive value")
  else
    match kt_shape X with
    | [_; _; _; None] =>
        raise (ValueError "The channel dimension of the inputs should be defined")
    | _ =>
        windowed (LConv2D filters kernel_size strides pad act kernel_initializer)
                 (fun _ => Some filters) kernel_size strides pad X
    end.

Definition MaxPooling2D (pool_size strides : Z * Z) (pad : padding)
           (X : KTensor) : K KTensor :=
  windowed (LMaxPooling2D pool_size strides pad) (fun c => c) pool_size strides pad X.

Definition AveragePooling2D (pool_size strides : Z * Z) (pad : padding)
           (X : KTensor) : K KTensor :=
  windowed (LAveragePooling2D pool_size strides pad) (fun c => c) pool_size strides pad X.

Fixpoint prod_dims (s : shape) : dim :=
  match s with
  | [] => Some 1
  | None :: _ => None
  | Some n :: s' =>
      match prod_dims s' with
      | Some m => Some (n * m)
      | None => None
      end
  end.

Definition Flatten (X : KTensor) : K KTensor :=
  match kt_shape X with
  | [] => raise (ValueError "Flatten expects a batch dimension")
  | b :: rest => add_node LFlatten [X] [b; prod_dims rest]
  end.

Definition Dropout (rate : Q) (X : KTensor) : K KTensor :=
  if Qle_bool 0 rate && Qle_bool rate 1
  then add_node (LDropout rate) [X] (kt_shape X)
  else raise (ValueError "Invalid value received for rate, expected a value between 0 and 1").

(** [Dense.__init__] of tf.keras 2.x rejects [units < 0] and accepts a
    width of 0 (Keras 3 rejects that too); [build] needs the last
    dimension of the input. *)
Definition Dense (units : Z) (act : activation) (name : option string)
           (kernel_initializer : initializer) (X : KTensor) : K KTensor :=
  if units <? 0
  then raise (ValueError "Received an invalid value for units, expected a positive integer")
  else
    match rev (kt_shape X) with
    | Some _ :: (_ :: _) as front =>
        add_node (LDense units act name kernel_initializer) [X]
                 (rev (Some units :: front))
    | _ => raise (ValueError "The last dimension of the inputs to Dense should be defined")
    end.

(** Python's [del l[i]] / [l[i]] index normalisation. *)
Definition norm_axis (axis : Z) (rank : nat) : option nat :=
  let a := if axis <? 0 then axis + Z.of_nat rank else axis in
  if (0 <=? a) && (a <? Z.of_nat rank) then Some (Z.to_nat a) else None.

Fixpoint del_at {A} (i : nat) (l : list A) : list A :=
  match i, l with
  | _, [] => []
  | O, _ :: l' => l'
  | S i', x :: l' => x :: del_at i' l'
  end.

Fixpoint set_at {A} (i : nat) (v : A) (l : list A) : list A :=
  match i, l with
  | _, [] => []
  | O, _ :: l' => v :: l'
  | S i', x :: l' => x :: set_at i' v l'
  end.

(** [Concatenate.build]: with the concatenation axis removed, the shapes
    must have one rank and, on every axis, at most one distinct known
    size.  [merge_shape] accumulates the known sizes seen so far. *)
Fixpoint merge_shape (acc s : shape) : option shape :=
  match acc, s with
  | [], [] => Some []
  | a :: acc', d :: s' =>
      match merge_shape acc' s' with
      | None => None
      | Some r =>
          match a, d with
          | None, _ => Some (d :: r)
          | Some _, None => Some (a :: r)
          | Some x, Some y => if x =? y then Some (a :: r) else None
          end
      end
  | _, _ => None
  end.

Fixpoint merge_all (acc : shape) (ss : list shape) : option shape :=
  match ss with
  | [] => Some acc
  | s :: ss' =>
      match merge_shape acc s with
      | Some acc' => merge_all acc' ss'
      | None => None
      end
  end.

(** [Concatenate.compute_output_shape]: the first input's shape with the
    sizes on the axis added up ([None] as soon as one is unknown). *)
Fixpoint sum_axis (i : nat) (ss : list shape) : dim :=
  match ss with
  | [] => Some 0
  | s :: ss' =>
      match nth i s None, sum_axis i ss' with
      | Some n, Some m => Some (n + m)
      | _, _ => None
      end
  end.

Definition concatenate (inputs : list KTensor) (axis : Z) : K KTensor :=
  match map kt_shape inputs with
  | [] => raise (ValueError "A Concatenate layer should be called on a list of inputs")
  | s0 :: ss =>
      match norm_axis axis (List.length s0) with
      | None => raise (IndexError "list assignment index out of range")
      | Some i =>
          if forallb (fun s => Nat.ltb i (List.length s)) ss
          then
            match merge_all (del_at i s0) (map (del_at i) ss) with
            | Some _ =>
                add_node (LConcatenate axis) inputs
                         (set_at i (sum_axis i (s0 :: ss)) s0)
            | None =>
                raise (ValueError "A Concatenate layer requires inputs with matching shapes except for the concatenation axis")
            end
          else raise (IndexError "list assignment index out of range")
      end
  end.

(** Optimizers, losses and the arguments of [Model.compile]. *)
Inductive optimizer : Type :=
| OptimizerName (name : string)
| SGD (learning_rate momentum : Q) (nesterov : bool).

Inductive loss : Type := CategoricalCrossentropy.

Inductive loss_arg : Type :=
| LossOne (l : loss)
| LossDict (d : list (string * loss)).

Inductive metrics_arg : Type :=
| MetricsList (l : list string)
| MetricsDict (d : list (string * string)).

Record CompileArgs : Type := mkCompile {
  c_loss : loss_arg;
  c_optimizer : optimizer;
  c_loss_weights : option (list Q);
  c_metrics : metrics_arg
}.

Record Model : Type := mkModel {
  inputs : list KTensor;
  outputs : list KTensor;
  compiled : option CompileArgs
}.

Definition compile (m : Model) (l : loss_arg) (o : optimizer)
           (loss_weights : option (list Q)) (metrics : metrics_arg) : Model :=
  mkModel (inputs m) (outputs m) (Some (mkCompile l o loss_weights metrics)).

(** The name given to a layer by its [name=] argument ([None]: a name
    generated by the framework). *)
Definition layer_name (l : layer) : option string :=
  match l with
  | LDense _ _ name _ => name
  | _ => None
  end.

Definition output_names (m : Model) : list (option string) :=
  map (fun t => layer_name (kt_layer t)) (outputs m).

(** A list passed as [loss_weights] is matched to the outputs by position. *)
Definition loss_weight (m : Model) (name : string) : option Q :=
  match compiled m with
  | Some c =>
      match c_loss_weights c with
      | Some ws =>
          match find (fun p => match fst p with
                               | Some n => String.eqb n name
                               | None => false
                               end)
                     (combine (output_names m) ws) with
          | Some p => Some (snd p)
          | None => None
          end
      | None => None
      end
  | None => None
  end.

Definition height (X : KTensor) : dim := nth 1 (kt_shape X) None.
Definition width (X : KTensor) : dim := nth 2 (kt_shape X) None.
Definition channels (X : KTensor) : dim := nth 3 (kt_shape X) None.

End Keras.

(** ** utils/GoogLeNet.py *)

Module GoogLeNet.
Import Keras.
Open Scope keras_scope.

(** [class GoogLeNet]: [__init__] stores its two arguments. *)
Record GoogLeNet : Type := __init__ {
  input_shape : Z * Z;
  classes : Z
}.

(** Three-element tuples, unpacked by [a, b, c = t]. *)
Definition triple (A : Type) : Type := (A * A * A)%type.

Definition default_kernel_size : triple (Z * Z) := ((1, 1), (3, 3), (5, 5)).
Definition default_pool_size : Z * Z := (3, 3).

Definition _naive_inception_block (X : KTensor) (filters : triple Z)
           (kernel_size : triple (Z * Z)) (pool_size : Z * Z)
           (initializer : init_class) : K KTensor :=
  let '(filters_1by1, filters_3by3, filters_5by5) := filters in
  let '(kernel_size_1by1, kernel_size_3by3, kernel_size_5by5) := kernel_size in
  X_1by1 <- Conv2D filters_1by1 kernel_size_1by1 (1, 1) valid relu
                   (InitSeed initializer 0) X ;;
  X_3by3 <- Conv2D filters_3by3 kernel_size_3by3 (1, 1) valid relu
                   (InitSeed initializer 0) X ;;
  X_5by5 <- Conv2D filters_5by5 kernel_size_5by5 (1, 1) valid relu
                   (InitSeed initializer 0) X ;;
  X_max_pooling <- MaxPooling2D pool_size (1, 1) same X ;;
  X_concat <- concatenate [X_1by1; X_3by3; X_5by5; X_max_pooling] 0 ;;
  ret X_concat.

Definition _inception_block (X : KTensor) (filters reduced_filters : triple Z)
           (kernel_size : triple (Z * Z)) (pool_size : Z * Z)
           (initializer : init_class) : K KTensor :=
  let '(filters_1by1, filters_3by3, filters_5by5) := filters in
  let '(reduced_filters_3by3, reduced_filters_5by5, pool_projection) := reduced_filters in
  let '(kernel_size_1by1, kernel_size_3by3, kernel_size_5by5) := kernel_size in
  (* 1x1 layer *)
  X_1by1 <- Conv2D filters_1by1 kernel_size_1by1 (1, 1) same relu
                   (InitSeed initializer 0) X ;;
  (* 3x3 layer *)
  X_reduced_3by3 <- Conv2D reduced_filters_3by3 (1, 1) (1, 1) same relu
                           (InitSeed initializer 0) X ;;
  X_3by3 <- Conv2D filters_3by3 kernel_size_3by3 (1, 1) same relu
                   (InitSeed initializer 0) X_reduced_3by3 ;;
  (* 5x5 layer *)
  X_reduced_5by5 <- Conv2D reduced_filters_5by5 (1, 1) (1, 1) same relu
                           (InitSeed initializer 0) X ;;
  X_5by5 <- Conv2D filters_5by5 kernel_size_5by5 (1, 1) same relu
                   (InitSeed initializer 0) X_reduced_5by5 ;;
  (* max pooling layer *)
  X_max_pooling <- MaxPooling2D pool_size (1, 1) same X ;;
  X_reduced_5by5 <- Conv2D pool_projection (1, 1) (1, 1) same relu
                           (InitSeed initializer 0) X_max_pooling ;;
  (* concatenate layers: the default axis is -1 *)
  X_concat <- concatenate [X_1by1; X_3by3; X_5by5; X_reduced_5by5] (-1) ;;
  ret X_concat.

Definition _auxiliary_classifier (self : GoogLeNet) (X : KTensor)
           (output_name : string) (initializer : init_class) : K KTensor :=
  X_average_pool <- AveragePooling2D (5, 5) (3, 3) valid X ;;
  X_conv <- Conv2D 128 (1, 1) (1, 1) same relu (InitSeed initializer 0)
                   X_average_pool ;;
  X_flatten <- Flatten X_conv ;;
  X_fc <- Dense 1024 relu None (InitSeed glorot_uniform 0) X_flatten ;;
  X_dropout <- Dropout (7 # 10) X_fc ;;
  X_aux_output <- Dense (classes self) softmax (Some output_name)
                        (InitSeed glorot_uniform 0) X_dropout ;;
  ret X_aux_output.

(** The block as [google_net] calls it: default kernels, pool size and
    initializer. *)
Definition inception (X : KTensor) (filters reduced_filters : triple Z) : K KTensor :=
  _inception_block X filters reduced_filters default_kernel_size
                   default_pool_size random_uniform.

Definition google_net (self : GoogLeNet) : K Model :=
  X_input <- Input [fst (input_shape self); snd (input_shape self); 3] ;;
  (* Layer 1 *)
  X <- Conv2D 64 (7, 7) (2, 2) same linear (InitClass random_uniform) X_input ;;
  (* Layer 2 *)
  X <- MaxPooling2D (3, 3) (2, 2) same X ;;
  (* Layer 3 *)
  X <- Conv2D 64 (1, 1) (1, 1) valid linear (InitClass random_uniform) X ;;
  (* Layer 4 *)
  X <- Conv2D 192 (3, 3) (1, 1) same linear (InitClass random_uniform) X ;;
  (* Layer 5 *)
  X <- MaxPooling2D (3, 3) (2, 2) same X ;;
  (* Inception 3a *)
  X <- inception X (64, 128, 32) (96, 16, 32) ;;
  (* Inception 3b *)
  X <- inception X (128, 192, 96) (128, 32, 64) ;;
  (* Layer 8 *)
  X <- MaxPooling2D (3, 3) (2, 2) same X ;;
  (* Inception 4a *)
  X <- inception X (192, 208, 48) (96, 16, 64) ;;
  (* First auxiliary output *)
  X_aux_1 <- _auxiliary_classifier self X "output_aux_1" random_uniform ;;
  (* Inception 4b *)
  X <- inception X (160, 224, 64) (112, 24, 64) ;;
  (* Inception 4c *)
  X <- inception X (128, 256, 64) (128, 24, 64) ;;
  (* Inception 4d *)
  X <- inception X (112, 288, 64) (144, 32, 64) ;;
  (* Second auxiliary output *)
  X_aux_2 <- _auxiliary_classifier self X "output_aux_2" random_uniform ;;
  (* Inception 4e *)
  X <- inception X (256, 320, 128) (160, 32, 128) ;;
  (* Layer 14 *)
  X <- MaxPooling2D (3, 3) (2, 2) same X ;;
  (* Inception 5a *)
  X <- inception X (256, 320, 128) (160, 32, 128) ;;
  (* Inception 5b *)
  X <- inception X (384, 384, 128) (192, 48, 128) ;;
  (* Layer 17 *)
  X <- AveragePooling2D (7, 7) (1, 1) valid X ;;
  X <- Flatten X ;;
  (* Layer 18 *)
  X <- Dropout (4 # 10) X ;;
  (* Layer 19 *)
  X <- Dense 1000 relu None (InitSeed glorot_uniform 0) X ;;
  (* Layer 20 *)
  output <- Dense (classes self) softmax (Some "output")
                  (InitSeed glorot_uniform 0) X ;;
  (* Create model *)
  let model := mkModel [X_input] [output; X_aux_1; X_aux_2] None in
  ret model.

End GoogLeNet.

(** ** utils/config.py *)

Module Config.

(** Modelled from the spec: [utils/config.py] is not among the sources.
    The spec describes it as a static mapping from model name to input
    resolution, plus the class list; the fields are the attributes of
    [Cfg] that [utils/model.py] and [infer_tflite.py] read.  Every
    definition below takes the configuration as a parameter. *)
Record Config : Type := mkConfig {
  MODEL_TYPE : string;
  RESNET50_INPUT_SIZE : Z * Z;
  MOBILENET_V1_INPUT_SIZE : Z * Z;
  MOBILENET_V2_INPUT_SIZE : Z * Z;
  GOOGLE_NET_INPUT_SIZE : Z * Z;
  VGG16_NET_INPUT_SIZE : Z * Z;
  VGG13_NET_INPUT_SIZE : Z * Z;
  VGG11_NET_INPUT_SIZE : Z * Z;
  CIFAR_10_CLASS_NAMES : list string
}.

(** An example configuration: the model name, 224x224 inputs for
    GoogLeNet, 32x32 for the others, and the CIFAR-10 class list. *)
Definition Cfg_example (model_type : string) : Config :=
  mkConfig model_type (32, 32) (32, 32) (32, 32) (224, 224) (32, 32) (32, 32) (32, 32)
           ["airplane"; "automobile"; "bird"; "cat"; "deer";
            "dog"; "frog"; "horse"; "ship"; "truck"].

(** A configuration that declares the native CIFAR-10 resolution, 32x32,
    for every architecture. *)
Definition Cfg_32x32 (model_type : string) : Config :=
  mkConfig model_type (32, 32) (32, 32) (32, 32) (32, 32) (32, 32) (32, 32) (32, 32)
           ["airplane"; "automobile"; "bird"; "cat"; "deer";
            "dog"; "frog"; "horse"; "ship"; "truck"].

End Config.

(** ** utils/model.py *)

Module ModelFactory.
Import Keras Config.
Open Scope keras_scope.

(** Python's [==] on strings. *)
Local Notation "a == b" := (String.eqb a b) (at level 70, no associativity).

(** The assemblers of the other architectures ([utils/ResNet.py],
    [utils/MobileNet.py], [utils/VGG.py]) and the framework's
    [tf.keras.models.load_model] are not among the sources: they are
    parameters.  [res_net50 input_shape classes] stands for
    [ResNet50(input_shape=..., classes=...).res_net50()], and so on. *)
Record Assemblers : Type := mkAssemblers {
  res_net50 : Z * Z -> Z -> K Model;
  mobile_net_v1 : Z * Z -> Z -> K Model;
  mobile_net_v2 : Z * Z -> Z -> K Model;
  vgg16 : Z * Z -> Z -> K Model;
  vgg13 : Z * Z -> Z -> K Model;
  vgg11 : Z * Z -> Z -> K Model
}.

Section WithConfig.

Variable Cfg : Config.
Variable Asm : Assemblers.
Variable tf_keras_models_load_model : string -> K Model.

Definition get_model (classes_numbers : Z) : K (Model * (Z * Z)) :=
  if MODEL_TYPE Cfg == "ResNet50" then
    (* Build model *)
    let input_size := RESNET50_INPUT_SIZE Cfg in
    model <- res_net50 Asm input_size classes_numbers ;;
    (* Compile model *)
    let model := compile model (LossOne CategoricalCrossentropy)
                         (OptimizerName "adam") None (MetricsList ["accuracy"]) in
    ret (model, input_size)
  else if MODEL_TYPE Cfg == "MobileNetV1" then
    let input_size := MOBILENET_V1_INPUT_SIZE Cfg in
    model <- mobile_net_v1 Asm input_size classes_numbers ;;
    let model := compile model (LossOne CategoricalCrossentropy)
                         (OptimizerName "adam") None (MetricsList ["accuracy"]) in
    ret (model, input_size)
  else if MODEL_TYPE Cfg == "MobileNetV2" then
    let input_size := MOBILENET_V2_INPUT_SIZE Cfg in
    model <- mobile_net_v2 Asm input_size classes_numbers ;;
    let model := compile model (LossOne CategoricalCrossentropy)
                         (OptimizerName "sgd") None (MetricsList ["accuracy"]) in
    ret (model, input_size)
  else if MODEL_TYPE Cfg == "GoogLeNet" then
    (* Build model *)
    let input_size := GOOGLE_NET_INPUT_SIZE Cfg in
    let google_net := GoogLeNet.__init__ input_size classes_numbers in
    model <- GoogLeNet.google_net google_net ;;
    let optimizer := SGD (1 # 100) (9 # 10) false in
    (* Compile model *)
    let losses := [("output", CategoricalCrossentropy);
                   ("output_aux_1", CategoricalCrossentropy);
                   ("output_aux_2", CategoricalCrossentropy)] in
    let metrics := [("output", "accuracy"); ("output_aux_1", "accuracy");
                    ("output_aux_2", "accuracy")] in
    let optimizer := SGD (1 # 10) (9 # 10) false in
    let model := compile model (LossDict losses) optimizer
                         (Some [1; 3 # 10; 3 # 10]%Q) (MetricsDict metrics) in
    ret (model, input_size)
  else if MODEL_TYPE Cfg == "VGG16" then
    let input_size := VGG16_NET_INPUT_SIZE Cfg in
    model <- vgg16 Asm input_size classes_numbers ;;
    let model := compile model (LossOne CategoricalCrossentropy)
                         (OptimizerName "adam") None (MetricsList ["accuracy"]) in
    ret (model, input_size)
  else if MODEL_TYPE Cfg == "VGG13" then
    let input_size := VGG13_NET_INPUT_SIZE Cfg in
    model <- vgg13 Asm input_size classes_numbers ;;
    let model := compile model (LossOne CategoricalCrossentropy)
                         (OptimizerName "adam") None (MetricsList ["accuracy"]) in
    ret (model, input_size)
  else if MODEL_TYPE Cfg == "VGG11" then
    let input_size := VGG11_NET_INPUT_SIZE Cfg in
    model <- vgg11 Asm input_size classes_numbers ;;
    let model := compile model (LossOne CategoricalCrossentropy)
                         (OptimizerName "adam") None (MetricsList ["accuracy"]) in
    ret (model, input_size)
  else
    raise (Exception "Invalid model type!").

Definition load_model (model_path : string) : K (Model * (Z * Z)) :=
  if MODEL_TYPE Cfg == "ResNet50" then
    let input_shape := RESNET50_INPUT_SIZE Cfg in
    (* Load model *)
    model <- tf_keras_models_load_model model_path ;;
    ret (model, input_shape)
  else if MODEL_TYPE Cfg == "MobileNetV1" then
    let input_shape := MOBILENET_V1_INPUT_SIZE Cfg in
    model <- tf_keras_models_load_model model_path ;;
    ret (model, input_shape)
  else if MODEL_TYPE Cfg == "MobileNetV2" then
    let input_shape := MOBILENET_V2_INPUT_SIZE Cfg in
    model <- tf_keras_models_load_model model_path ;;
    ret (model, input_shape)
  else if MODEL_TYPE Cfg == "GoogLeNet" then
    let input_shape := GOOGLE_NET_INPUT_SIZE Cfg in
    model <- tf_keras_models_load_model model_path ;;
    ret (model, input_shape)
  else if MODEL_TYPE Cfg == "VGG16" then
    let input_shape := VGG16_NET_INPUT_SIZE Cfg in
    model <- tf_keras_models_load_model model_path ;;
    ret (model, input_shape)
  else if MODEL_TYPE Cfg == "VGG13" then
    let input_shape := VGG13_NET_INPUT_SIZE Cfg in
    model <- tf_keras_models_load_model model_path ;;
    ret (model, input_shape)
  else if MODEL_TYPE Cfg == "VGG11" then
    let input_shape := VGG11_NET_INPUT_SIZE Cfg in
    model <- tf_keras_models_load_model model_path ;;
    ret (model, input_shape)
  else
    raise (Exception "Invalid model type!").

End WithConfig.

(** The model names the two if-chains recognise. *)
Definition supported : list string :=
  ["ResNet50"; "MobileNetV1"; "MobileNetV2"; "GoogLeNet"; "VGG16"; "VGG13"; "VGG11"].

(** The [Cfg] constant both chains read for a model name. *)
Definition declared_input_size (Cfg : Config) : Z * Z :=
  if MODEL_TYPE Cfg == "ResNet50" then RESNET50_INPUT_SIZE Cfg
  else if MODEL_TYPE Cfg == "MobileNetV1" then MOBILENET_V1_INPUT_SIZE Cfg
  else if MODEL_TYPE Cfg == "MobileNetV2" then MOBILENET_V2_INPUT_SIZE Cfg
  else if MODEL_TYPE Cfg == "GoogLeNet" then GOOGLE_NET_INPUT_SIZE Cfg
  else if MODEL_TYPE Cfg == "VGG16" then VGG16_NET_INPUT_SIZE Cfg
  else if MODEL_TYPE Cfg == "VGG13" then VGG13_NET_INPUT_SIZE Cfg
  else VGG11_NET_INPUT_SIZE Cfg.

End ModelFactory.

(** ** numpy arrays, as far as [infer_tflite.py] uses them *)

Module Numpy.

Section Ndarray.

Variable A : Type.
(** The strict order of the element type ([a > b]). *)
Variable gtb : A -> A -> bool.

(** An array is a scalar (0-d) or a sequence of sub-arrays. *)
Local Unset Elimination Schemes.
Inductive ndarray : Type :=
| Scalar (a : A)
| Array (items : list ndarray).
Local Set Elimination Schemes.

(** Python's [seq[i]] for an integer index. *)
Definition py_index {B} (l : list B) (i : Z) : result B :=
  let n := Z.of_nat (List.length l) in
  let j := if i <? 0 then i + n else i in
  if (0 <=? j) && (j <? n)
  then match nth_error l (Z.to_nat j) with
       | Some b => OK b
       | None => Raise (IndexError "index out of range")
       end
  else Raise (IndexError "index out of range").

(** [x[i]]: a 0-d value cannot be indexed. *)
Definition getitem (x : ndarray) (i : Z) : result ndarray :=
  match x with
  | Scalar _ => Raise (IndexError "invalid index to scalar variable.")
  | Array items => py_index items i
  end.

(** The elements in row-major order. *)
Fixpoint ravel (x : ndarray) : list A :=
  match x with
  | Scalar a => [a]
  | Array items => flat_map ravel items
  end.

Fixpoint argmax_from (best : A) (best_i i : Z) (l : list A) : Z :=
  match l with
  | [] => best_i
  | a :: l' =>
      if gtb a best
      then argmax_from a i (i + 1) l'
      else argmax_from best best_i (i + 1) l'
  end.

(** [np.argmax(x)] without an axis: the index, in the flattened array,
    of the first occurrence of the maximum. *)
Definition argmax (x : ndarray) : result Z :=
  match ravel x with
  | [] => Raise (ValueError "attempt to get argmax of an empty sequence")
  | a :: l => OK (argmax_from a 0 1 l)
  end.

End Ndarray.

Arguments Scalar {A} a.
Arguments Array {A} items.
Arguments getitem {A} x i.
Arguments ravel {A} x.
Arguments argmax {A} gtb x.
Arguments argmax_from {A} gtb best best_i i l.

End Numpy.

(** ** infer_tflite.py *)

Module InferTflite.
Import Numpy Config.

Definition rbind {A B} (m : result A) (f : A -> result B) : result B :=
  match m with
  | OK a => f a
  | Raise e => Raise e
  end.

Declare Scope result_scope.
Notation "x <- m ;; k" := (rbind m (fun x => k))
  (at level 100, m at next level, right associativity) : result_scope.
Open Scope result_scope.

(** One entry of [get_input_details()] / [get_output_details()]. *)
Record TensorDetails : Type := mkDetails {
  index : Z;
  shape : list Z
}.

Section Driver.

Variable A : Type.
Variable gtb : A -> A -> bool.

(** The interpreter's tensors, by tensor index. *)
Definition Tensors := Z -> option (ndarray A).

(** [tf.lite.Interpreter] for the model file: the tensors it allocates,
    its input and output descriptors, and what one [invoke()] does to
    the tensors. *)
Record Interpreter : Type := mkInterpreter {
  allocate_tensors : Tensors;
  get_input_details : list TensorDetails;
  get_output_details : list TensorDetails;
  invoke : Tensors -> Tensors
}.

Definition set_tensor (t : Tensors) (i : Z) (v : ndarray A) : Tensors :=
  fun j => if j =? i then Some v else t j.

Definition get_tensor (t : Tensors) (i : Z) : result (ndarray A) :=
  match t i with
  | Some v => OK v
  | None => Raise (ValueError "Tensor data is null")
  end.

Variable Cfg : Config.
Variable interpreter : Interpreter.
(** [Uf.load_images] ([utils/utils.py], not among the sources) and
    [ndarray.astype('float32')]. *)
Variable load_images : list string -> list Z -> ndarray A.
Variable astype_float32 : ndarray A -> ndarray A.

(** The script up to the assignment of [label]. *)
Definition label : result string :=
  let tensors := allocate_tensors interpreter in
  (* Get input and output tensors *)
  let input_details := get_input_details interpreter in
  let output_details := get_output_details interpreter in
  (* Load images *)
  let images_path := ["./samples/11.png"] in
  input_0 <- py_index input_details 0 ;;
  let images := load_images images_path (firstn 2 (skipn 1 (shape input_0))) in
  (* Convert float64 to float32 *)
  let images := astype_float32 images in
  (* Infer on a sample image *)
  let tensors := set_tensor tensors (index input_0) images in
  let tensors := invoke interpreter tensors in
  output_0 <- py_index output_details 0 ;;
  output_data <- get_tensor tensors (index output_0) ;;
  (* Convert output to corresponding label *)
  row <- getitem output_data 0 ;;
  slot <- getitem row 0 ;;
  i <- argmax gtb slot ;;
  py_index (CIFAR_10_CLASS_NAMES Cfg) i.

(** What the script prints. *)
Definition printed : result string :=
  l <- label ;; OK ("The predicted labels is " ++ l)%string.

End Driver.

End InferTflite.

(** * Specifications *)

(** ** Outcomes of layer calls *)

Module Outcomes.
Import Keras.
Open Scope keras_scope.

(** [returns m g P]: run in graph context [g], [m] returns a value
    satisfying [P]. *)
Definition returns {A} (m : K A) (g : Graph) (P : A -> Prop) : Prop :=
  exists a g', m g = OK (a, g') /\ P a.

(** [fails m g]: run in graph context [g], [m] raises. *)
Definition fails {A} (m : K A) (g : Graph) : Prop :=
  exists e, m g = Raise e.

(** What a layer call records about the tensor it creates. *)
Definition made_by (l : layer) (inbound : list KTensor) (s : shape) (Y : KTensor) : Prop :=
  kt_shape Y = s /\ kt_layer Y = l /\ kt_inbound Y = map kt_id inbound.

End Outcomes.

(** ** Feature maps, spatial reductions and the assembled graph *)

Module GraphSpec.
Import Keras GoogLeNet Outcomes.
Open Scope keras_scope.

(** The feature map [Input((28, 28, 192))] creates in an empty context. *)
Definition X_28x28x192 : KTensor :=
  mkTensor 0 (LInput [28; 28; 192]) [] [None; Some 28; Some 28; Some 192].

(** The feature map [Input((8, 8, 4))] creates in an empty context. *)
Definition X_8x8x4 : KTensor :=
  mkTensor 0 (LInput [8; 8; 4]) [] [None; Some 8; Some 8; Some 4].

(** One stride-2 [same] reduction: [ceil (n / 2)]. *)
Definition halve (n : Z) : Z := (n + 2 - 1) / 2.

(** The spatial size after the four reductions before the auxiliary heads,
    and after all five. *)
Definition reduced_16 (n : Z) : Z := halve (halve (halve (halve n))).

Definition reduced_32 (n : Z) : Z := halve (reduced_16 n).

(** What an auxiliary head returns: the class-probability vector made by
    the [Dense] layer carrying the given output name. *)
Definition aux_output (self : GoogLeNet) (name : string) (b : dim) (Y : KTensor) : Prop :=
  kt_shape Y = [b; Some (classes self)] /\
  kt_layer Y = LDense (classes self) softmax (Some name) (InitSeed glorot_uniform 0).

(** The graph [google_net] assembles: one input node of shape
    (None, H, W, 3) and the three named class-probability outputs. *)
Definition google_net_graph (H W classes : Z) (m : Model) : Prop :=
  (exists X_input,
      inputs m = [X_input] /\
      kt_layer X_input = LInput [H; W; 3] /\
      kt_shape X_input = [None; Some H; Some W; Some 3]) /\
  output_names m = [Some "output"; Some "output_aux_1"; Some "output_aux_2"] /\
  map kt_shape (outputs m) =
    [[None; Some classes]; [None; Some classes]; [None; Some classes]] /\
  compiled m = None.

End GraphSpec.

(** ** What the factory promises; stand-ins for the absent assemblers *)

Module FactorySpec.
Import Keras Config ModelFactory Outcomes GraphSpec.
Open Scope keras_scope.

(** Modelled from the spec: the assemblers of the single-output
    architectures ([utils/ResNet.py], [utils/MobileNet.py],
    [utils/VGG.py]) are not among the sources.  The spec states of them
    that the graph has a single input node accepting the given input
    resolution and one output node. *)
Definition single_output_spec (assemble : Z * Z -> Z -> K Model) : Prop :=
  forall input_size classes g m g',
    assemble input_size classes g = OK (m, g') ->
    (exists X_input,
        inputs m = [X_input] /\
        height X_input = Some (fst input_size) /\
        width X_input = Some (snd input_size)) /\
    List.length (outputs m) = 1%nat.

(** Modelled from the spec: a stand-in for a single-output assembler (one
    input node of the given resolution, one softmax output), used to
    instantiate the assembler and loader parameters at concrete inputs. *)
Definition one_output_net (input_size : Z * Z) (classes : Z) : K Model :=
  X_input <- Input [fst input_size; snd input_size; 3] ;;
  X <- Flatten X_input ;;
  output <- Dense classes softmax None (InitSeed glorot_uniform 0) X ;;
  ret (mkModel [X_input] [output] None).

Definition Asm_example : Assemblers :=
  mkAssemblers one_output_net one_output_net one_output_net
               one_output_net one_output_net one_output_net.

Definition load_example (model_path : string) : K Model :=
  one_output_net (32, 32) 10.

(** [get_model] on the GoogLeNet branch: assemble, then compile. *)
Definition google_net_compile (model : Model) : Model :=
  compile model
          (LossDict [("output", CategoricalCrossentropy);
                     ("output_aux_1", CategoricalCrossentropy);
                     ("output_aux_2", CategoricalCrossentropy)])
          (SGD (1 # 10) (9 # 10) false)
          (Some [1; 3 # 10; 3 # 10]%Q)
          (MetricsDict [("output", "accuracy"); ("output_aux_1", "accuracy");
                        ("output_aux_2", "accuracy")]).

(** The graph interface [get_model] promises for a model name. *)
Definition graph_interface (Cfg : Config) (model : Model) (input_size : Z * Z) : Prop :=
  input_size = declared_input_size Cfg /\
  (exists X_input,
      inputs model = [X_input] /\
      height X_input = Some (fst input_size) /\
      width X_input = Some (snd input_size)) /\
  (MODEL_TYPE Cfg = "GoogLeNet" ->
   output_names model = [Some "output"; Some "output_aux_1"; Some "output_aux_2"]) /\
  (MODEL_TYPE Cfg <> "GoogLeNet" -> List.length (outputs model) = 1%nat).

(** The compile recipe of the multi-output architecture. *)
Definition google_net_recipe (model : Model) : Prop :=
  exists c,
    compiled model = Some c /\
    c_loss c = LossDict [("output", CategoricalCrossentropy);
                         ("output_aux_1", CategoricalCrossentropy);
                         ("output_aux_2", CategoricalCrossentropy)] /\
    loss_weight model "output" = Some 1%Q /\
    loss_weight model "output_aux_1" = Some (3 # 10)%Q /\
    loss_weight model "output_aux_2" = Some (3 # 10)%Q /\
    (3 # 10 < 1)%Q /\
    c_optimizer c = SGD (1 # 10) (9 # 10) false.

End FactorySpec.

(** ** An interpreter and an output tensor for the driver *)

Module InferExamples.
Import Numpy Config InferTflite.

(** Probabilities as rationals, with their order. *)
Definition Qgtb (a b : Q) : bool := negb (Qle_bool a b).

(** An interpreter with one 32x32x3 input (tensor 0) and one 10-class
    output (tensor 1) whose forward pass writes [output] to tensor 1. *)
Definition interpreter_writing (output : ndarray Q) : Interpreter Q :=
  mkInterpreter Q (fun _ => None)
                [mkDetails 0 [1; 32; 32; 3]] [mkDetails 1 [1; 10]]
                (fun t => set_tensor Q t 1 output).

(** A probability vector whose maximum, 0.9, is at index 1. *)
Definition probabilities : list Q :=
  [1 # 100; 9 # 10; 1 # 100; 1 # 100; 1 # 100;
   1 # 100; 1 # 100; 1 # 100; 2 # 100; 2 # 100]%Q.

Definition output_1x10 : ndarray Q := Array [Array (map Scalar probabilities)].

End InferExamples.

(** ** Wiring of the layer graph *)

Module WiringSpec.
Import Keras GoogLeNet.
Open Scope keras_scope.

(** The wiring of a node: its id and the ids of the tensors it consumes. *)
Definition skeleton (t : KTensor) : nat * list nat := (kt_id t, kt_inbound t).

Definition Skeleton : Type := list (nat * list nat).

Definition same_wiring (g1 g2 : Graph) : Prop := map skeleton g1 = map skeleton g2.

Definition same_id (X1 X2 : KTensor) : Prop := kt_id X1 = kt_id X2.

Definition same_ports (m1 m2 : Model) : Prop :=
  map kt_id (inputs m1) = map kt_id (inputs m2) /\
  map kt_id (outputs m1) = map kt_id (outputs m2).

(** Two computations wire alike: run in contexts of one wiring, what they
    return is related by [R] and the contexts they leave have one wiring. *)
Definition alike {A} (R : A -> A -> Prop) (m1 m2 : K A) : Prop :=
  forall g1 g2 a1 g1' a2 g2',
    same_wiring g1 g2 ->
    m1 g1 = OK (a1, g1') -> m2 g2 = OK (a2, g2') ->
    same_wiring g1' g2' /\ R a1 a2.

(** A call that, when it returns, has appended exactly one node to the
    context: the tensor it returns, made by layer [l] from the tensors
    [ins]. *)
Definition emits (l : layer) (ins : list nat) (m : K KTensor) : Prop :=
  forall g Y g',
    m g = OK (Y, g') ->
    g' = g ++ [Y] /\ kt_id Y = List.length g /\
    kt_layer Y = l /\ kt_inbound Y = ins.

(** Node [t] was made by layer [l] from the tensors [ins]. *)
Definition wired (l : layer) (ins : list KTensor) (t : KTensor) : Prop :=
  kt_layer t = l /\ kt_inbound t = map kt_id ins.

(** A computation that, when it returns, has appended exactly [n] nodes and
    changed none. *)
Definition appends {A} (n : nat) (m : K A) : Prop :=
  forall g a g',
    m g = OK (a, g') -> exists new, g' = g ++ new /\ List.length new = n.

(** [returns_in m g P]: run in graph context [g], [m] returns a value and
    leaves a context that together satisfy [P]. *)
Definition returns_in {A} (m : K A) (g : Graph) (P : A -> Graph -> Prop) : Prop :=
  exists a g', m g = OK (a, g') /\ P a g'.

(** Context [g] is context [g0] with [k] nodes appended. *)
Definition grown (g0 : Graph) (k : nat) (g : Graph) : Prop :=
  exists new, g = g0 ++ new /\ List.length new = k.

(** What one step of the trunk leaves behind: the tensor made, where it
    sits, and a context that kept every earlier node. *)
Definition left_by (g0 : Graph) (k n : nat) (g : Graph) (P : KTensor -> Prop)
           (Y : KTensor) (g' : Graph) : Prop :=
  P Y /\ kt_id Y = (List.length g0 + k + n - 1)%nat /\ In Y g' /\
  incl g g' /\ grown g0 (k + n) g'.

(** No node consumes a node created after it. *)
Definition acyclic (sk : Skeleton) : bool :=
  forallb (fun p => forallb (fun j => Nat.ltb j (fst p)) (snd p)) sk.

(** The nodes that consume nothing. *)
Definition sources (sk : Skeleton) : list nat :=
  map fst (filter (fun p => match snd p with [] => true | _ => false end) sk).

Definition mem (i : nat) (l : list nat) : bool := existsb (Nat.eqb i) l.

(** The nodes the nodes [outs] depend on, themselves included, in creation
    order: one pass from the last node to the first, which is enough when
    the wiring is [acyclic] and the ids are the positions. *)
Definition ancestors (sk : Skeleton) (outs : list nat) : list nat :=
  let needed :=
    fold_left (fun acc p => if mem (fst p) acc then snd p ++ acc else acc)
              (rev sk) outs in
  filter (fun i => mem i needed) (map fst sk).

(** The wiring of the graph [google_net] assembles in an empty context for a
    224x224 input and 10 classes. *)
Definition reference_skeleton : Skeleton :=
  Eval vm_compute in
    match google_net (__init__ (224, 224) 10) [] with
    | OK (_, g) => map skeleton g
    | Raise _ => []
    end.

Definition reference_ports : list nat * list nat :=
  Eval vm_compute in
    match google_net (__init__ (224, 224) 10) [] with
    | OK (m, _) => (map kt_id (inputs m), map kt_id (outputs m))
    | Raise _ => ([], [])
    end.

End WiringSpec.

(** ** The dispatch table of the single-output architectures *)

Module DispatchSpec.
Import Keras Config ModelFactory.
Open Scope keras_scope.

(** The assembler [get_model] calls for a single-output model name. *)
Definition assembler_for (Asm : Assemblers) (name : string)
  : option (Z * Z -> Z -> K Model) :=
  if String.eqb name "ResNet50" then Some (res_net50 Asm)
  else if String.eqb name "MobileNetV1" then Some (mobile_net_v1 Asm)
  else if String.eqb name "MobileNetV2" then Some (mobile_net_v2 Asm)
  else if String.eqb name "VGG16" then Some (vgg16 Asm)
  else if String.eqb name "VGG13" then Some (vgg13 Asm)
  else if String.eqb name "VGG11" then Some (vgg11 Asm)
  else None.

(** The optimizer name it compiles that model with. *)
Definition optimizer_for (name : string) : string :=
  if String.eqb name "MobileNetV2" then "sgd" else "adam".

Definition single_output_compile (name : string) (m : Model) : Model :=
  compile m (LossOne CategoricalCrossentropy) (OptimizerName (optimizer_for name))
          None (MetricsList ["accuracy"]).

End DispatchSpec.

(** * Properties *)

(** ** Layer calls: what they return and when they raise *)

Module KerasFacts.
Import Keras Outcomes.
Open Scope keras_scope.

Lemma returns_ret {A} (a : A) g (P : A -> Prop) : P a -> returns (ret a) g P.
Proof. intros HP. exists a, g. split; [reflexivity | exact HP]. Qed.

Lemma returns_bind {A B} (m : K A) (f : A -> K B) g (P : A -> Prop) (Q : B -> Prop) :
  returns m g P ->
  (forall a g', P a -> returns (f a) g' Q) ->
  returns (bind m f) g Q.
Proof.
  intros (a & g' & Hm & HP) Hf.
  destruct (Hf a g' HP) as (b & g'' & Hb & HQ).
  exists b, g''. unfold bind. rewrite Hm. split; assumption.
Qed.

Lemma returns_weaken {A} (m : K A) g (P Q : A -> Prop) :
  returns m g P -> (forall a, P a -> Q a) -> returns m g Q.
Proof. intros (a & g' & Hm & HP) HPQ. exists a, g'. split; auto. Qed.

Lemma fails_bind_now {A B} (m : K A) (f : A -> K B) g :
  fails m g -> fails (bind m f) g.
Proof. intros (e & Hm). exists e. unfold bind. rewrite Hm. reflexivity. Qed.

Lemma fails_bind_later {A B} (m : K A) (f : A -> K B) g (P : A -> Prop) :
  returns m g P ->
  (forall a g', P a -> fails (f a) g') ->
  fails (bind m f) g.
Proof.
  intros (a & g' & Hm & HP) Hf.
  destruct (Hf a g' HP) as (e & He).
  exists e. unfold bind. rewrite Hm. exact He.
Qed.

Lemma bind_inv {A B} (m : K A) (f : A -> K B) g b g'' :
  bind m f g = OK (b, g'') ->
  exists a g', m g = OK (a, g') /\ f a g' = OK (b, g'').
Proof.
  unfold bind. destruct (m g) as [[a g'] | e]; [|discriminate].
  intros H. exists a, g'. split; [reflexivity | exact H].
Qed.

Lemma returns_not_fails {A} (m : K A) g (P : A -> Prop) :
  returns m g P -> ~ fails m g.
Proof. intros (a & g' & Hm & _) (e & He). congruence. Qed.

Lemma returns_det {A} (m : K A) g (P : A -> Prop) a g' :
  returns m g P -> m g = OK (a, g') -> P a.
Proof. intros (a' & g'' & Hm & HP) H. congruence. Qed.

Lemma add_node_returns l inbound s g :
  returns (add_node l inbound s) g (made_by l inbound s).
Proof.
  unfold returns, add_node, made_by. eexists; eexists.
  split; [reflexivity|]. cbn. auto.
Qed.

Lemma add_node_inv l inbound s g Y g' :
  add_node l inbound s g = OK (Y, g') ->
  made_by l inbound s Y /\ kt_id Y = List.length g /\ g' = g ++ [Y].
Proof.
  unfold add_node, made_by. intros H. inversion H; subst; cbn. auto.
Qed.

Lemma same_stride_1 (d : dim) k : conv_output_length d k same 1 = d.
Proof.
  destruct d as [n|]; cbn; [|reflexivity].
  f_equal. rewrite Z.div_1_r. lia.
Qed.

Lemma valid_stride_1 n k : conv_output_length (Some n) k valid 1 = Some (n - k + 1).
Proof. cbn. f_equal. rewrite Z.div_1_r. lia. Qed.

Lemma size_ok_of_dim_ok pad d : dim_ok d = true -> size_ok pad d = true.
Proof. destruct pad; [exact (fun H => H) | reflexivity]. Qed.

Lemma windowed_returns l ch window strides pad X g b h w c :
  pair_pos window = true -> pair_pos strides = true ->
  kt_shape X = [b; h; w; c] ->
  dim_ok (conv_output_length h (fst window) pad (fst strides)) = true ->
  dim_ok (conv_output_length w (snd window) pad (snd strides)) = true ->
  returns (windowed l ch window strides pad X) g
          (made_by l [X] [b; conv_output_length h (fst window) pad (fst strides);
                          conv_output_length w (snd window) pad (snd strides); ch c]).
Proof.
  intros Hw Hs HX Hh Hw'. unfold windowed.
  rewrite Hw, Hs, HX.
  rewrite (size_ok_of_dim_ok pad _ Hh), (size_ok_of_dim_ok pad _ Hw').
  cbn [andb negb]. apply add_node_returns.
Qed.

Lemma windowed_fails l ch window strides X g b h w c :
  kt_shape X = [b; h; w; c] ->
  dim_ok (conv_output_length h (fst window) valid (fst strides)) = false \/
  dim_ok (conv_output_length w (snd window) valid (snd strides)) = false ->
  fails (windowed l ch window strides valid X) g.
Proof.
  intros HX Hbad. unfold windowed, fails, size_ok.
  destruct (negb (pair_pos window && pair_pos strides)); [eexists; reflexivity|].
  rewrite HX.
  destruct Hbad as [Hbad | Hbad]; rewrite Hbad; rewrite ?andb_false_r;
    eexists; reflexivity.
Qed.

Lemma windowed_inv l ch window strides pad X g Y g' :
  windowed l ch window strides pad X g = OK (Y, g') ->
  exists b h w c,
    kt_shape X = [b; h; w; c] /\
    made_by l [X] [b; conv_output_length h (fst window) pad (fst strides);
                   conv_output_length w (snd window) pad (snd strides); ch c] Y.
Proof.
  unfold windowed.
  destruct (negb (pair_pos window && pair_pos strides)); [discriminate|].
  destruct (kt_shape X) as [|b [|h [|w [|c [|? ?]]]]]; try discriminate.
  destruct (size_ok _ _ && size_ok _ _); [|discriminate].
  intros H. apply add_node_inv in H. exists b, h, w, c. tauto.
Qed.

Lemma Conv2D_returns filters kernel_size strides pad act init X g b h w c :
  0 < filters ->
  pair_pos kernel_size = true -> pair_pos strides = true ->
  kt_shape X = [b; h; w; Some c] ->
  dim_ok (conv_output_length h (fst kernel_size) pad (fst strides)) = true ->
  dim_ok (conv_output_length w (snd kernel_size) pad (snd strides)) = true ->
  returns (Conv2D filters kernel_size strides pad act init X) g
          (made_by (LConv2D filters kernel_size strides pad act init) [X]
                   [b; conv_output_length h (fst kernel_size) pad (fst strides);
                    conv_output_length w (snd kernel_size) pad (snd strides);
                    Some filters]).
Proof.
  intros Hf Hk Hs HX Hh Hw. unfold Conv2D.
  destruct (Z.leb_spec filters 0); [lia|].
  rewrite HX.
  apply (windowed_returns _ (fun _ => Some filters) _ _ _ _ _ b h w (Some c));
    assumption.
Qed.

Lemma Conv2D_inv filters kernel_size strides pad act init X g Y g' :
  Conv2D filters kernel_size strides pad act init X g = OK (Y, g') ->
  exists b h w c,
    kt_shape X = [b; h; w; c] /\
    made_by (LConv2D filters kernel_size strides pad act init) [X]
            [b; conv_output_length h (fst kernel_size) pad (fst strides);
             conv_output_length w (snd kernel_size) pad (snd strides);
             Some filters] Y.
Proof.
  unfold Conv2D. destruct (filters <=? 0); [discriminate|].
  intros H.
  assert (Hw : windowed (LConv2D filters kernel_size strides pad act init)
                        (fun _ => Some filters) kernel_size strides pad X g = OK (Y, g')).
  { destruct (kt_shape X) as [|b [|h [|w [|[c|] [|? ?]]]]]; try exact H; discriminate. }
  apply windowed_inv in Hw. exact Hw.
Qed.

(** *** Concatenate *)

Lemma merge_shape_refl s : merge_shape s s = Some s.
Proof.
  induction s as [|[x|] s IH]; cbn; [reflexivity| |]; rewrite IH;
    [rewrite Z.eqb_refl|]; reflexivity.
Qed.

(** A size known in the accumulator stays, and the merged shape agrees
    with it. *)
Lemma merge_shape_keeps acc : forall s r,
  merge_shape acc s = Some r ->
  forall i x, nth i acc None = Some x ->
    nth i r None = Some x /\ (forall y, nth i s None = Some y -> y = x).
Proof.
  induction acc as [|a acc IH]; intros [|d s] r H i x Hi; cbn in H;
    try discriminate.
  - destruct i; discriminate.
  - destruct (merge_shape acc s) as [r'|] eqn:E; [|discriminate].
    destruct i as [|i].
    + cbn in Hi. subst a. destruct d as [y|].
      * destruct (Z.eqb_spec x y); [|discriminate].
        inversion H; subst. cbn. split; [reflexivity|]. congruence.
      * inversion H; subst. cbn. split; [reflexivity|]. discriminate.
    + cbn in Hi. destruct (IH s r' E i x Hi) as [Hr Hs].
      assert (exists a', r = a' :: r') as [a' ->].
      { destruct a as [xa|]; [destruct d as [y|]|];
          [destruct (xa =? y); [|discriminate]| |];
          inversion H; eexists; reflexivity. }
      cbn. split; assumption.
Qed.

Lemma merge_all_agree ss : forall acc r,
  merge_all acc ss = Some r ->
  forall s, In s ss ->
  forall i x y, nth i acc None = Some x -> nth i s None = Some y -> y = x.
Proof.
  induction ss as [|s0 ss IH]; intros acc r H s Hin i x y Hx Hy; [destruct Hin|].
  cbn in H. destruct (merge_shape acc s0) as [acc'|] eqn:E; [|discriminate].
  destruct (merge_shape_keeps _ _ _ E i x Hx) as [Hacc' Hs0].
  destruct Hin as [<- | Hin].
  - apply Hs0. exact Hy.
  - eapply IH; eassumption.
Qed.

Lemma concatenate_inv ins axis g Y g' :
  concatenate ins axis g = OK (Y, g') ->
  exists s0 ss i r,
    map kt_shape ins = s0 :: ss /\
    norm_axis axis (List.length s0) = Some i /\
    merge_all (del_at i s0) (map (del_at i) ss) = Some r /\
    made_by (LConcatenate axis) ins (set_at i (sum_axis i (s0 :: ss)) s0) Y.
Proof.
  unfold concatenate.
  destruct (map kt_shape ins) as [|s0 ss] eqn:Hm; [discriminate|].
  destruct (norm_axis axis (List.length s0)) as [i|] eqn:Hi; [|discriminate].
  match goal with |- context [forallb ?f ss] => destruct (forallb f ss) end;
    [|discriminate].
  destruct (merge_all _ _) as [r|] eqn:E; [|discriminate].
  intros H. apply add_node_inv in H.
  exists s0, ss, i, r. tauto.
Qed.

(** Four feature maps of one batch and spatial size, concatenated along
    the last axis: the channel counts add up. *)
Lemma concatenate_channels X1 X2 X3 X4 g b h w c1 c2 c3 c4 :
  kt_shape X1 = [b; h; w; Some c1] ->
  kt_shape X2 = [b; h; w; Some c2] ->
  kt_shape X3 = [b; h; w; Some c3] ->
  kt_shape X4 = [b; h; w; Some c4] ->
  returns (concatenate [X1; X2; X3; X4] (-1)) g
          (made_by (LConcatenate (-1)) [X1; X2; X3; X4]
                   [b; h; w; Some (c1 + c2 + c3 + c4)]).
Proof.
  intros H1 H2 H3 H4. unfold concatenate.
  cbn [map]. rewrite H1, H2, H3, H4.
  change (norm_axis (-1) (List.length [b; h; w; Some c1])) with (Some 3%nat).
  cbn -[merge_shape]. rewrite !merge_shape_refl.
  replace (c1 + (c2 + (c3 + (c4 + 0)))) with (c1 + c2 + c3 + c4) by lia.
  apply add_node_returns.
Qed.

End KerasFacts.

(** ** The inception blocks *)

Module GoogLeNetFacts.
Import Keras GoogLeNet Outcomes GraphSpec KerasFacts.
Open Scope keras_scope.

Example Input_28x28x192 : Input [28; 28; 192] [] = OK (X_28x28x192, [X_28x28x192]).
Proof. reflexivity. Qed.

Example Input_8x8x4 : Input [8; 8; 4] [] = OK (X_8x8x4, [X_8x8x4]).
Proof. reflexivity. Qed.

(** Stride-1 [same] layers keep the spatial size. *)
Lemma Conv2D_same_returns filters kernel_size act init X g b h w c :
  0 < filters -> pair_pos kernel_size = true ->
  kt_shape X = [b; h; w; Some c] ->
  dim_ok h = true -> dim_ok w = true ->
  returns (Conv2D filters kernel_size (1, 1) same act init X) g
          (made_by (LConv2D filters kernel_size (1, 1) same act init) [X]
                   [b; h; w; Some filters]).
Proof.
  intros Hf Hk HX Hh Hw.
  pose proof (Conv2D_returns filters kernel_size (1, 1) same act init X g b h w c
                             Hf Hk eq_refl HX) as H.
  cbn [fst snd] in H. rewrite !same_stride_1 in H. auto.
Qed.

Lemma MaxPooling2D_same_returns pool_size X g b h w c :
  pair_pos pool_size = true ->
  kt_shape X = [b; h; w; c] ->
  dim_ok h = true -> dim_ok w = true ->
  returns (MaxPooling2D pool_size (1, 1) same X) g
          (made_by (LMaxPooling2D pool_size (1, 1) same) [X] [b; h; w; c]).
Proof.
  intros Hk HX Hh Hw.
  pose proof (windowed_returns (LMaxPooling2D pool_size (1, 1) same) (fun c => c)
                               pool_size (1, 1) same X g b h w c Hk eq_refl HX) as H.
  cbn [fst snd] in H. rewrite !same_stride_1 in H. auto.
Qed.

Ltac layer lem :=
  eapply returns_bind;
  [ eapply lem; eauto
  | let Y := fresh "Y" in
    let g' := fresh "g" in
    let HY := fresh "HY" in
    intros Y g' [HY _] ].

Lemma _inception_block_returns X g f1 f3 f5 r3 r5 pp k1 k3 k5 ps init b h w c :
  kt_shape X = [b; h; w; Some c] ->
  dim_ok h = true -> dim_ok w = true ->
  0 < f1 -> 0 < f3 -> 0 < f5 -> 0 < r3 -> 0 < r5 -> 0 < pp ->
  pair_pos k1 = true -> pair_pos k3 = true -> pair_pos k5 = true ->
  pair_pos ps = true ->
  returns (_inception_block X (f1, f3, f5) (r3, r5, pp) (k1, k3, k5) ps init) g
          (fun Y => kt_shape Y = [b; h; w; Some (f1 + f3 + f5 + pp)]).
Proof.
  intros HX Hh Hw Hf1 Hf3 Hf5 Hr3 Hr5 Hpp Hk1 Hk3 Hk5 Hps.
  unfold _inception_block.
  layer Conv2D_same_returns.
  layer Conv2D_same_returns.
  layer Conv2D_same_returns.
  layer Conv2D_same_returns.
  layer Conv2D_same_returns.
  layer MaxPooling2D_same_returns.
  layer Conv2D_same_returns.
  eapply returns_bind.
  - eapply concatenate_channels; eassumption.
  - intros Y' g' [HY' _]. apply returns_ret. exact HY'.
Qed.

(** Whatever [_inception_block] returns has the spatial size of its input. *)
Lemma _inception_block_spatial X filters reduced_filters kernel_size ps init g Y g' :
  _inception_block X filters reduced_filters kernel_size ps init g = OK (Y, g') ->
  height Y = height X /\ width Y = width X.
Proof.
  destruct filters as [[f1 f3] f5], reduced_filters as [[r3 r5] pp],
           kernel_size as [[k1 k3] k5].
  unfold _inception_block. intros H.
  apply bind_inv in H. destruct H as (X1 & g1 & H1 & H).
  do 6 (apply bind_inv in H; destruct H as (? & ? & _ & H)).
  apply bind_inv in H. destruct H as (Yc & gc & Hc & H).
  inversion H; subst Yc gc; clear H.
  apply Conv2D_inv in H1. destruct H1 as (b & h & w & c & HX & HX1 & _).
  cbn [fst snd] in HX1. rewrite !same_stride_1 in HX1.
  apply concatenate_inv in Hc.
  destruct Hc as (s0 & ss & i & r & Hm & Hi & _ & HY & _).
  cbn [map] in Hm. rewrite HX1 in Hm. inversion Hm; subst s0 ss; clear Hm.
  change (norm_axis (-1) (List.length [b; h; w; Some f1])) with (Some 3%nat) in Hi.
  inversion Hi; subst i; clear Hi.
  unfold height, width. rewrite HY, HX. cbn. auto.
Qed.

(** Whatever [_naive_inception_block] returns has the spatial size of its
    input too: the pooling branch is [same]-padded, and the concatenation
    accepts the branches only when their sizes agree off the axis. *)
Lemma _naive_inception_block_inv X f1 f3 f5 k1 k3 k5 ps init g Y g' :
  _naive_inception_block X (f1, f3, f5) (k1, k3, k5) ps init g = OK (Y, g') ->
  exists b h w c r,
    kt_shape X = [b; h; w; c] /\
    merge_all [conv_output_length h (fst k1) valid 1;
               conv_output_length w (snd k1) valid 1; Some f1]
              [[conv_output_length h (fst k3) valid 1;
                conv_output_length w (snd k3) valid 1; Some f3];
               [conv_output_length h (fst k5) valid 1;
                conv_output_length w (snd k5) valid 1; Some f5];
               [h; w; c]] = Some r /\
    height Y = conv_output_length h (fst k1) valid 1 /\
    width Y = conv_output_length w (snd k1) valid 1 /\
    kt_layer Y = LConcatenate 0.
Proof.
  unfold _naive_inception_block. intros H.
  apply bind_inv in H. destruct H as (X1 & g1 & H1 & H).
  apply bind_inv in H. destruct H as (X3 & g3 & H3 & H).
  apply bind_inv in H. destruct H as (X5 & g5 & H5 & H).
  apply bind_inv in H. destruct H as (Xp & gp & Hp & H).
  apply bind_inv in H. destruct H as (Yc & gc & Hc & H).
  inversion H; subst Yc gc; clear H.
  apply Conv2D_inv in H1. destruct H1 as (b & h & w & c & HX & HX1 & _).
  apply Conv2D_inv in H3. destruct H3 as (b3 & h3 & w3 & c3 & HX' & HX3 & _).
  rewrite HX in HX'. inversion HX'; subst b3 h3 w3 c3; clear HX'.
  apply Conv2D_inv in H5. destruct H5 as (b5 & h5 & w5 & c5 & HX' & HX5 & _).
  rewrite HX in HX'. inversion HX'; subst b5 h5 w5 c5; clear HX'.
  apply windowed_inv in Hp. destruct Hp as (bp & hp & wp & cp & HX' & HXp & _).
  rewrite HX in HX'. inversion HX'; subst bp hp wp cp; clear HX'.
  cbn [fst snd] in HX1, HX3, HX5, HXp. rewrite !same_stride_1 in HXp.
  apply concatenate_inv in Hc.
  destruct Hc as (s0 & ss & i & r & Hm & Hi & Hmerge & HY & HL & _).
  cbn [map] in Hm. rewrite HX1, HX3, HX5, HXp in Hm.
  inversion Hm; subst s0 ss; clear Hm.
  change (norm_axis 0 (List.length [b; conv_output_length h (fst k1) valid 1;
                                    conv_output_length w (snd k1) valid 1; Some f1]))
    with (Some 0%nat) in Hi.
  inversion Hi; subst i; clear Hi.
  exists b, h, w, c, r. split; [exact HX|]. split; [exact Hmerge|].
  unfold height, width. rewrite HY. cbn. auto.
Qed.

Lemma valid_agrees_with_same (d : dim) k :
  (forall x y, conv_output_length d k valid 1 = Some x -> d = Some y -> y = x) ->
  conv_output_length d k valid 1 = d /\ (forall n, d = Some n -> k = 1).
Proof.
  destruct d as [n|]; [|split; [reflexivity | discriminate]].
  rewrite valid_stride_1. intros H.
  specialize (H (n - k + 1) n eq_refl eq_refl).
  split; [f_equal; lia | intros; lia].
Qed.

Lemma _naive_inception_block_spatial X filters kernel_size ps init g Y g' :
  _naive_inception_block X filters kernel_size ps init g = OK (Y, g') ->
  height Y = height X /\ width Y = width X.
Proof.
  destruct filters as [[f1 f3] f5], kernel_size as [[k1 k3] k5]. intros H.
  apply _naive_inception_block_inv in H.
  destruct H as (b & h & w & c & r & HX & Hm & Hh & Hw & _).
  unfold height at 2, width at 2. rewrite HX, Hh, Hw. cbn [nth].
  split.
  - apply valid_agrees_with_same. intros x y Hx Hy.
    apply (merge_all_agree _ _ _ Hm [h; w; c]) with (i := 0%nat);
      [cbn; auto | exact Hx | exact Hy].
  - apply valid_agrees_with_same. intros x y Hx Hy.
    apply (merge_all_agree _ _ _ Hm [h; w; c]) with (i := 1%nat);
      [cbn; auto | exact Hx | exact Hy].
Qed.

(** With a known input size the naive block returns only when every
    branch kernel is 1x1: a larger [valid] convolution yields a smaller map
    than the [same]-padded pooling branch, and the concatenation rejects
    the mismatch. *)
Lemma _naive_inception_block_only_1by1 X f1 f3 f5 k1 k3 k5 ps init g Y g' b n m c :
  kt_shape X = [b; Some n; Some m; c] ->
  _naive_inception_block X (f1, f3, f5) (k1, k3, k5) ps init g = OK (Y, g') ->
  (k1, k3, k5) = ((1, 1), (1, 1), (1, 1)).
Proof.
  intros HX H. apply _naive_inception_block_inv in H.
  destruct H as (b' & h & w & c' & r & HX' & Hm & _).
  rewrite HX in HX'. inversion HX'; subst b' h w c'; clear HX'.
  rewrite !valid_stride_1 in Hm.
  pose proof (fun s Hin i x y => merge_all_agree _ _ _ Hm s Hin i x y) as Hag.
  assert (Hp0 := Hag [Some n; Some m; c] ltac:(cbn; auto) 0%nat _ _ eq_refl eq_refl).
  assert (Hp1 := Hag [Some n; Some m; c] ltac:(cbn; auto) 1%nat _ _ eq_refl eq_refl).
  assert (H30 := Hag _ ltac:(cbn; left; reflexivity) 0%nat _ _ eq_refl eq_refl).
  assert (H31 := Hag _ ltac:(cbn; left; reflexivity) 1%nat _ _ eq_refl eq_refl).
  assert (H50 := Hag _ ltac:(cbn; right; left; reflexivity) 0%nat _ _ eq_refl eq_refl).
  assert (H51 := Hag _ ltac:(cbn; right; left; reflexivity) 1%nat _ _ eq_refl eq_refl).
  destruct k1 as [a1 b1], k3 as [a3 b3], k5 as [a5 b5]. cbn [fst snd] in *.
  repeat f_equal; lia.
Qed.

(** C7.  For every feature map and every BlockSpec of positive integers,
    [_inception_block] returns a feature map whose channel count is
    [filters[0] + filters[1] + filters[2] + reduced_filters[2]], the last
    summand being the pool-projection width. *)
Theorem inception_block_channel_count
        X g filters_0 filters_1 filters_2 reduced_0 reduced_1 reduced_2
        k0 k1 k2 pool_size init b h w c :
  kt_shape X = [b; h; w; Some c] ->
  dim_ok h = true -> dim_ok w = true ->
  0 < filters_0 -> 0 < filters_1 -> 0 < filters_2 ->
  0 < reduced_0 -> 0 < reduced_1 -> 0 < reduced_2 ->
  pair_pos k0 = true -> pair_pos k1 = true -> pair_pos k2 = true ->
  pair_pos pool_size = true ->
  exists Y g',
    _inception_block X (filters_0, filters_1, filters_2)
                     (reduced_0, reduced_1, reduced_2) (k0, k1, k2)
                     pool_size init g = OK (Y, g') /\
    channels Y = Some (filters_0 + filters_1 + filters_2 + reduced_2).
Proof.
  intros HX Hh Hw H0 H1 H2 R0 R1 R2 K0 K1 K2 HP.
  destruct (_inception_block_returns X g filters_0 filters_1 filters_2
              reduced_0 reduced_1 reduced_2 k0 k1 k2 pool_size init b h w c)
    as (Y & g' & HY & HS); try assumption; try lia.
  exists Y, g'. split; [exact HY|].
  unfold channels. rewrite HS. reflexivity.
Qed.

Lemma inception_block_channel_count_witness :
  exists Y g',
    _inception_block X_28x28x192 (64, 128, 32) (96, 16, 32) default_kernel_size
                     default_pool_size random_uniform [X_28x28x192] = OK (Y, g') /\
    channels Y = Some (64 + 128 + 32 + 32).
Proof.
  apply (inception_block_channel_count X_28x28x192 [X_28x28x192]
           64 128 32 96 16 32 (1, 1) (3, 3) (5, 5) (3, 3) random_uniform
           None (Some 28) (Some 28) 192);
    reflexivity.
Defined.

(** C6 at the failing input.  On the 28x28x192 map with the default
    kernels (28 is larger than the largest kernel, 5), [_inception_block]
    returns a 28x28 map, as the claim says.  The four branches of
    [_naive_inception_block] measure 28x28 (1x1 [valid] convolution), 26x26
    (3x3), 24x24 (5x5) and 28x28 ([same] pooling), and the block raises
    [ValueError] when it concatenates them: it returns no feature map at
    all, smaller or not. *)
Theorem naive_inception_block_raises_on_default_kernels :
  (exists Y g',
      _inception_block X_28x28x192 (64, 128, 32) (96, 16, 32) default_kernel_size
                       default_pool_size random_uniform [X_28x28x192] = OK (Y, g') /\
      height Y = Some 28 /\ width Y = Some 28)
  /\ (exists X_1by1 X_3by3 X_5by5 X_max_pooling g1 g3 g5 gp,
        Conv2D 64 (1, 1) (1, 1) valid relu (InitSeed random_uniform 0)
               X_28x28x192 [X_28x28x192] = OK (X_1by1, g1) /\
        Conv2D 128 (3, 3) (1, 1) valid relu (InitSeed random_uniform 0)
               X_28x28x192 g1 = OK (X_3by3, g3) /\
        Conv2D 32 (5, 5) (1, 1) valid relu (InitSeed random_uniform 0)
               X_28x28x192 g3 = OK (X_5by5, g5) /\
        MaxPooling2D (3, 3) (1, 1) same X_28x28x192 g5 = OK (X_max_pooling, gp) /\
        map kt_shape [X_1by1; X_3by3; X_5by5; X_max_pooling] =
          [[None; Some 28; Some 28; Some 64]; [None; Some 26; Some 26; Some 128];
           [None; Some 24; Some 24; Some 32]; [None; Some 28; Some 28; Some 192]])
  /\ (exists msg,
        _naive_inception_block X_28x28x192 (64, 128, 32) default_kernel_size
                               default_pool_size random_uniform [X_28x28x192]
        = Raise (ValueError msg)).
Proof.
  split; [|split].
  - eexists; eexists. split; [reflexivity|]. split; reflexivity.
  - do 8 eexists.
    split; [vm_compute; reflexivity|]. split; [vm_compute; reflexivity|].
    split; [vm_compute; reflexivity|]. split; [vm_compute; reflexivity|].
    reflexivity.
  - eexists. reflexivity.
Qed.

(** C2 at the failing inputs.  With 1x1 kernels on an 8x8x4 map the four
    branches (4 channels each) are concatenated by a layer of axis 0, the
    batch axis, and the result has 4 channels, not 16; with the default
    kernels the same call raises. *)
Theorem naive_inception_block_concatenates_on_axis_0 :
  (exists Y g',
      _naive_inception_block X_8x8x4 (4, 4, 4) ((1, 1), (1, 1), (1, 1))
                             default_pool_size random_uniform [X_8x8x4]
      = OK (Y, g') /\
      kt_layer Y = LConcatenate 0 /\
      kt_inbound Y = [1; 2; 3; 4]%nat /\
      kt_shape Y = [None; Some 8; Some 8; Some 4])
  /\ (exists msg,
        _naive_inception_block X_28x28x192 (64, 128, 32) default_kernel_size
                               default_pool_size random_uniform [X_28x28x192]
        = Raise (ValueError msg)).
Proof.
  split.
  - eexists; eexists. split; [reflexivity|]. cbn. auto.
  - eexists. reflexivity.
Qed.

End GoogLeNetFacts.

(** ** The GoogLeNet assembler *)

Module AssemblerFacts.
Import Keras GoogLeNet Outcomes GraphSpec KerasFacts GoogLeNetFacts.
Open Scope keras_scope.

Lemma halve_pos n : 0 < n -> 0 < halve n.
Proof. unfold halve. intros H. apply Z.div_str_pos. lia. Qed.

Lemma halve_nonpos n : n <= 0 -> halve n <= 0.
Proof.
  unfold halve. intros H.
  assert ((n + 2 - 1) / 2 < 1); [|lia].
  apply Z.div_lt_upper_bound; lia.
Qed.

Lemma halve_bounds n : n <= 2 * halve n <= n + 1.
Proof. unfold halve. Z.div_mod_to_equations. lia. Qed.

Lemma reduced_32_ge_7 n : 7 <= reduced_32 n <-> 193 <= n.
Proof.
  unfold reduced_32, reduced_16.
  pose proof (halve_bounds n).
  pose proof (halve_bounds (halve n)).
  pose proof (halve_bounds (halve (halve n))).
  pose proof (halve_bounds (halve (halve (halve n)))).
  pose proof (halve_bounds (halve (halve (halve (halve n))))).
  lia.
Qed.

Lemma reduced_16_ge_5 n : 7 <= reduced_32 n -> 5 <= reduced_16 n.
Proof.
  unfold reduced_32. pose proof (halve_bounds (reduced_16 n)). lia.
Qed.

Lemma dim_ok_pos n : 0 < n -> dim_ok (Some n) = true.
Proof. intros H. cbn. apply Z.ltb_lt. exact H. Qed.

Lemma dim_ok_nonpos n : n <= 0 -> dim_ok (Some n) = false.
Proof. intros H. cbn. apply Z.ltb_ge. exact H. Qed.

(** The stride-2 [same] layers of the trunk. *)
Lemma Conv2D_halving_returns filters kernel_size act init X g b h w c :
  0 < filters -> pair_pos kernel_size = true ->
  kt_shape X = [b; Some h; Some w; Some c] ->
  0 < h -> 0 < w ->
  returns (Conv2D filters kernel_size (2, 2) same act init X) g
          (made_by (LConv2D filters kernel_size (2, 2) same act init) [X]
                   [b; Some (halve h); Some (halve w); Some filters]).
Proof.
  intros Hf Hk HX Hh Hw.
  apply (Conv2D_returns filters kernel_size (2, 2) same act init X g
                        b (Some h) (Some w) c Hf Hk eq_refl HX);
    apply dim_ok_pos, halve_pos; assumption.
Qed.

Lemma MaxPooling2D_halving_returns pool_size X g b h w c :
  pair_pos pool_size = true ->
  kt_shape X = [b; Some h; Some w; c] ->
  0 < h -> 0 < w ->
  returns (MaxPooling2D pool_size (2, 2) same X) g
          (made_by (LMaxPooling2D pool_size (2, 2) same) [X]
                   [b; Some (halve h); Some (halve w); c]).
Proof.
  intros Hk HX Hh Hw.
  apply (windowed_returns (LMaxPooling2D pool_size (2, 2) same) (fun c => c)
                          pool_size (2, 2) same X g b (Some h) (Some w) c
                          Hk eq_refl HX);
    apply dim_ok_pos, halve_pos; assumption.
Qed.

(** Layer 3: a 1x1 [valid] convolution keeps the size. *)
Lemma Conv2D_1by1_valid_returns filters act init X g b h w c :
  0 < filters ->
  kt_shape X = [b; Some h; Some w; Some c] ->
  0 < h -> 0 < w ->
  returns (Conv2D filters (1, 1) (1, 1) valid act init X) g
          (made_by (LConv2D filters (1, 1) (1, 1) valid act init) [X]
                   [b; Some h; Some w; Some filters]).
Proof.
  intros Hf HX Hh Hw.
  pose proof (Conv2D_returns filters (1, 1) (1, 1) valid act init X g
                             b (Some h) (Some w) c Hf eq_refl eq_refl HX) as H.
  cbn [fst snd] in H. rewrite !valid_stride_1 in H.
  replace (h - 1 + 1) with h in H by lia.
  replace (w - 1 + 1) with w in H by lia.
  apply H; apply dim_ok_pos; assumption.
Qed.

(** The [valid] average poolings: 5x5 with stride 3 in the auxiliary
    heads, 7x7 with stride 1 before the classifier. *)
Lemma AveragePooling2D_valid_returns k s X g b h w c :
  0 < k -> 0 < s ->
  kt_shape X = [b; Some h; Some w; c] ->
  k <= h -> k <= w ->
  returns (AveragePooling2D (k, k) (s, s) valid X) g
          (made_by (LAveragePooling2D (k, k) (s, s) valid) [X]
                   [b; Some ((h - k + 1 + s - 1) / s);
                    Some ((w - k + 1 + s - 1) / s); c]).
Proof.
  intros Hk Hs HX Hh Hw.
  apply (windowed_returns (LAveragePooling2D (k, k) (s, s) valid) (fun c => c)
                          (k, k) (s, s) valid X g b (Some h) (Some w) c).
  - unfold pair_pos. cbn. destruct (Z.ltb_spec 0 k); [reflexivity|lia].
  - unfold pair_pos. cbn. destruct (Z.ltb_spec 0 s); [reflexivity|lia].
  - exact HX.
  - apply dim_ok_pos. cbn. apply Z.div_str_pos. lia.
  - apply dim_ok_pos. cbn. apply Z.div_str_pos. lia.
Qed.

Lemma AveragePooling2D_valid_fails k s X g b h w c :
  0 < s ->
  kt_shape X = [b; Some h; Some w; c] ->
  h < k \/ w < k ->
  fails (AveragePooling2D (k, k) (s, s) valid X) g.
Proof.
  intros Hs HX Hsmall.
  apply (windowed_fails _ _ (k, k) (s, s) X g b (Some h) (Some w) c HX).
  destruct Hsmall as [Hh | Hw]; [left | right];
    apply dim_ok_nonpos; cbn;
    match goal with |- ?a / s <= 0 => assert (a / s < 1); [|lia] end;
    apply Z.div_lt_upper_bound; lia.
Qed.

Lemma Flatten_returns X g b rest :
  kt_shape X = b :: rest ->
  returns (Flatten X) g (made_by LFlatten [X] [b; prod_dims rest]).
Proof. intros HX. unfold Flatten. rewrite HX. apply add_node_returns. Qed.

Lemma Dropout_returns rate X g :
  Qle_bool 0 rate && Qle_bool rate 1 = true ->
  returns (Dropout rate X) g (made_by (LDropout rate) [X] (kt_shape X)).
Proof. intros Hr. unfold Dropout. rewrite Hr. apply add_node_returns. Qed.

Lemma Dense_returns units act name init X g b d :
  0 <= units ->
  kt_shape X = [b; Some d] ->
  returns (Dense units act name init X) g
          (made_by (LDense units act name init) [X] [b; Some units]).
Proof.
  intros Hu HX. unfold Dense.
  destruct (Z.ltb_spec units 0); [lia|].
  rewrite HX. cbn [rev app]. apply add_node_returns.
Qed.

Lemma Dense_fails units act name init X g :
  units < 0 -> fails (Dense units act name init X) g.
Proof.
  intros Hu. unfold Dense, fails.
  destruct (Z.ltb_spec units 0); [|lia].
  eexists. reflexivity.
Qed.

Lemma Input_returns s g :
  forallb (fun n => 0 <=? n) s = true ->
  returns (Input s) g (made_by (LInput s) [] (None :: map Some s)).
Proof. intros Hs. unfold Input. rewrite Hs. apply add_node_returns. Qed.

(** One step of a chain of layer calls: the call returns (by [lem]) and
    the rest of the chain runs on what it returned. *)
Ltac positive :=
  first [ assumption
        | apply dim_ok_pos; positive
        | apply halve_pos; positive
        | apply Z.div_str_pos; lia
        | lia ].

Ltac run lem :=
  first [eapply returns_bind | eapply fails_bind_later];
  [ eapply lem; try eassumption; try reflexivity; try positive
  | let Y := fresh "Y" in
    let g' := fresh "g" in
    let HY := fresh "HY" in
    intros Y g' HY;
    try (let HL := fresh "HL" in destruct HY as (HY & HL & _));
    cbn [map prod_dims] in HY ].

Lemma inception_returns X g f1 f3 f5 r3 r5 pp b h w c :
  kt_shape X = [b; Some h; Some w; Some c] ->
  0 < h -> 0 < w ->
  0 < f1 -> 0 < f3 -> 0 < f5 -> 0 < r3 -> 0 < r5 -> 0 < pp ->
  returns (inception X (f1, f3, f5) (r3, r5, pp)) g
          (fun Y => kt_shape Y = [b; Some h; Some w; Some (f1 + f3 + f5 + pp)]).
Proof.
  intros. unfold inception.
  eapply _inception_block_returns; try eassumption; try reflexivity;
    apply dim_ok_pos; assumption.
Qed.

Lemma _auxiliary_classifier_returns self X name init g b h w c :
  kt_shape X = [b; Some h; Some w; Some c] ->
  5 <= h -> 5 <= w -> 0 <= classes self ->
  returns (_auxiliary_classifier self X name init) g (aux_output self name b).
Proof.
  intros HX Hh Hw Hc. unfold _auxiliary_classifier.
  run AveragePooling2D_valid_returns.
  run Conv2D_same_returns.
  run Flatten_returns.
  run Dense_returns.
  run Dropout_returns.
  run Dense_returns.
  - rewrite HY3. exact HY2.
  - apply returns_ret. split; assumption.
Qed.

Lemma _auxiliary_classifier_fails_small self X name init g b h w c :
  kt_shape X = [b; Some h; Some w; c] ->
  h < 5 \/ w < 5 ->
  fails (_auxiliary_classifier self X name init) g.
Proof.
  intros HX Hsmall. unfold _auxiliary_classifier.
  apply fails_bind_now.
  eapply AveragePooling2D_valid_fails; [lia | exact HX | exact Hsmall].
Qed.

Lemma _auxiliary_classifier_fails_classes self X name init g b h w c :
  kt_shape X = [b; Some h; Some w; Some c] ->
  5 <= h -> 5 <= w -> classes self < 0 ->
  fails (_auxiliary_classifier self X name init) g.
Proof.
  intros HX Hh Hw Hc. unfold _auxiliary_classifier.
  run AveragePooling2D_valid_returns.
  run Conv2D_same_returns.
  run Flatten_returns.
  run Dense_returns.
  run Dropout_returns.
  apply fails_bind_now. apply Dense_fails. exact Hc.
Qed.

Lemma nonneg_dims H W : 0 < H -> 0 < W ->
  forallb (fun n => 0 <=? n) [H; W; 3] = true.
Proof.
  intros HH HW. cbn.
  destruct (Z.leb_spec 0 H); [|lia]. destruct (Z.leb_spec 0 W); [|lia].
  reflexivity.
Qed.

Lemma google_net_returns H W num_classes g :
  0 < H -> 0 < W ->
  5 <= reduced_16 H -> 5 <= reduced_16 W ->
  7 <= reduced_32 H -> 7 <= reduced_32 W ->
  0 <= num_classes ->
  returns (google_net (__init__ (H, W) num_classes)) g (google_net_graph H W num_classes).
Proof.
  intros HH HW H16 W16 H32 W32 Hc.
  unfold google_net. cbn [input_shape classes fst snd].
  eapply returns_bind; [apply Input_returns, nonneg_dims; assumption|].
  intros X_input g0 (HXin & HLin & _). cbn [map] in HXin.
  run Conv2D_halving_returns.
  run MaxPooling2D_halving_returns.
  run Conv2D_1by1_valid_returns.
  run Conv2D_same_returns.
  run MaxPooling2D_halving_returns.
  run inception_returns.
  run inception_returns.
  run MaxPooling2D_halving_returns.
  run inception_returns.
  run _auxiliary_classifier_returns.
  run inception_returns.
  run inception_returns.
  run inception_returns.
  run _auxiliary_classifier_returns.
  run inception_returns.
  run MaxPooling2D_halving_returns.
  run inception_returns.
  run inception_returns.
  run AveragePooling2D_valid_returns.
  run Flatten_returns.
  run Dropout_returns.
  run Dense_returns.
  { rewrite HY19. exact HY18. }
  run Dense_returns.
  apply returns_ret. unfold google_net_graph, output_names. cbn [inputs outputs compiled map].
  split; [exists X_input; auto|].
  destruct HY8 as [HS8 HA8]. destruct HY12 as [HS12 HA12].
  rewrite HL10, HA8, HA12, HY21, HS8, HS12. cbn. auto.
Qed.

(** Where assembly raises.  Nothing in [google_net] tests its arguments;
    every exception comes from a layer call. *)
Lemma Conv2D_1by1_valid_fails filters act init X g b h w c :
  kt_shape X = [b; Some h; Some w; Some c] ->
  h <= 0 \/ w <= 0 ->
  fails (Conv2D filters (1, 1) (1, 1) valid act init X) g.
Proof.
  intros HX Hsmall. unfold Conv2D.
  destruct (filters <=? 0); [eexists; reflexivity|].
  rewrite HX.
  apply (windowed_fails _ _ (1, 1) (1, 1) X g b (Some h) (Some w) (Some c) HX).
  cbn [fst snd]. rewrite !valid_stride_1.
  destruct Hsmall; [left | right]; apply dim_ok_nonpos; lia.
Qed.

Lemma halving_returns_any l ch window X g b h w c :
  pair_pos window = true ->
  kt_shape X = [b; Some h; Some w; c] ->
  returns (windowed l ch window (2, 2) same X) g
          (made_by l [X] [b; Some (halve h); Some (halve w); ch c]).
Proof.
  intros Hk HX. unfold windowed. rewrite Hk, HX. cbn [pair_pos fst snd andb negb Z.ltb Z.compare size_ok].
  apply add_node_returns.
Qed.

Lemma google_net_fails_nonpositive_size H W num_classes g :
  H <= 0 \/ W <= 0 ->
  fails (google_net (__init__ (H, W) num_classes)) g.
Proof.
  intros Hsmall. unfold google_net. cbn [input_shape fst snd].
  destruct (forallb (fun n => 0 <=? n) [H; W; 3]) eqn:E.
  - eapply fails_bind_later; [apply Input_returns; exact E|].
    intros X_input g0 (HXin & _). cbn [map] in HXin.
    (* Layers 1 and 2 accept the empty map; the [valid] layer 3 does not *)
    eapply fails_bind_later.
    { unfold Conv2D. cbn [Z.leb Z.compare]. rewrite HXin.
      apply (halving_returns_any _ (fun _ => Some 64) (7, 7) X_input g0
                                 None H W (Some 3) eq_refl HXin). }
    intros X1 g1 (HX1 & _).
    eapply fails_bind_later.
    { apply (halving_returns_any _ (fun c => c) (3, 3) X1 g1
                                 None (halve H) (halve W) (Some 64) eq_refl HX1). }
    intros X2 g2 (HX2 & _).
    apply fails_bind_now.
    eapply Conv2D_1by1_valid_fails; [exact HX2|].
    destruct Hsmall; [left | right]; apply halve_nonpos, halve_nonpos; assumption.
  - apply fails_bind_now. unfold Input. rewrite E. eexists. reflexivity.
Qed.

Lemma google_net_fails_small_for_heads H W num_classes g :
  0 < H -> 0 < W ->
  reduced_16 H < 5 \/ reduced_16 W < 5 ->
  fails (google_net (__init__ (H, W) num_classes)) g.
Proof.
  intros HH HW Hsmall.
  unfold google_net. cbn [input_shape fst snd].
  eapply fails_bind_later; [apply Input_returns, nonneg_dims; assumption|].
  intros X_input g0 (HXin & HLin & _). cbn [map] in HXin.
  run Conv2D_halving_returns.
  run MaxPooling2D_halving_returns.
  run Conv2D_1by1_valid_returns.
  run Conv2D_same_returns.
  run MaxPooling2D_halving_returns.
  run inception_returns.
  run inception_returns.
  run MaxPooling2D_halving_returns.
  run inception_returns.
  apply fails_bind_now.
  eapply _auxiliary_classifier_fails_small; [eassumption | exact Hsmall].
Qed.

Lemma google_net_fails_negative_classes H W num_classes g :
  0 < H -> 0 < W ->
  5 <= reduced_16 H -> 5 <= reduced_16 W ->
  num_classes < 0 ->
  fails (google_net (__init__ (H, W) num_classes)) g.
Proof.
  intros HH HW H16 W16 Hc.
  unfold google_net. cbn [input_shape fst snd].
  eapply fails_bind_later; [apply Input_returns, nonneg_dims; assumption|].
  intros X_input g0 (HXin & HLin & _). cbn [map] in HXin.
  run Conv2D_halving_returns.
  run MaxPooling2D_halving_returns.
  run Conv2D_1by1_valid_returns.
  run Conv2D_same_returns.
  run MaxPooling2D_halving_returns.
  run inception_returns.
  run inception_returns.
  run MaxPooling2D_halving_returns.
  run inception_returns.
  apply fails_bind_now.
  eapply _auxiliary_classifier_fails_classes; try eassumption.
Qed.

Lemma google_net_fails_small_for_pool H W num_classes g :
  0 < H -> 0 < W ->
  5 <= reduced_16 H -> 5 <= reduced_16 W ->
  0 <= num_classes ->
  reduced_32 H < 7 \/ reduced_32 W < 7 ->
  fails (google_net (__init__ (H, W) num_classes)) g.
Proof.
  intros HH HW H16 W16 Hc Hsmall.
  unfold google_net. cbn [input_shape GoogLeNet.classes fst snd].
  eapply fails_bind_later; [apply Input_returns, nonneg_dims; assumption|].
  intros X_input g0 (HXin & HLin & _). cbn [map] in HXin.
  run Conv2D_halving_returns.
  run MaxPooling2D_halving_returns.
  run Conv2D_1by1_valid_returns.
  run Conv2D_same_returns.
  run MaxPooling2D_halving_returns.
  run inception_returns.
  run inception_returns.
  run MaxPooling2D_halving_returns.
  run inception_returns.
  run _auxiliary_classifier_returns.
  run inception_returns.
  run inception_returns.
  run inception_returns.
  run _auxiliary_classifier_returns.
  run inception_returns.
  run MaxPooling2D_halving_returns.
  run inception_returns.
  run inception_returns.
  apply fails_bind_now.
  eapply AveragePooling2D_valid_fails; [lia | eassumption | exact Hsmall].
Qed.

(** The two outcomes of assembly, by input. *)
Lemma google_net_returns_large H W num_classes g :
  193 <= H -> 193 <= W -> 0 <= num_classes ->
  returns (google_net (__init__ (H, W) num_classes)) g
          (google_net_graph H W num_classes).
Proof.
  intros HH HW Hc.
  assert (H32 := proj2 (reduced_32_ge_7 H) HH).
  assert (W32 := proj2 (reduced_32_ge_7 W) HW).
  apply google_net_returns; try lia; try assumption;
    apply reduced_16_ge_5; assumption.
Qed.

Lemma google_net_fails_otherwise H W num_classes g :
  H < 193 \/ W < 193 \/ num_classes < 0 ->
  fails (google_net (__init__ (H, W) num_classes)) g.
Proof.
  intros Hcase.
  destruct (Z_le_gt_dec H 0); [apply google_net_fails_nonpositive_size; lia|].
  destruct (Z_le_gt_dec W 0); [apply google_net_fails_nonpositive_size; lia|].
  destruct (Z_lt_le_dec (reduced_16 H) 5);
    [apply google_net_fails_small_for_heads; lia|].
  destruct (Z_lt_le_dec (reduced_16 W) 5);
    [apply google_net_fails_small_for_heads; lia|].
  destruct (Z_lt_le_dec num_classes 0);
    [apply google_net_fails_negative_classes; lia|].
  apply google_net_fails_small_for_pool; try lia.
  pose proof (reduced_32_ge_7 H). pose proof (reduced_32_ge_7 W). lia.
Qed.

End AssemblerFacts.

(** ** The model factory and the model loader *)

Module FactoryFacts.
Import Keras Config ModelFactory Outcomes GraphSpec FactorySpec KerasFacts AssemblerFacts.
Open Scope keras_scope.

Lemma one_output_net_spec : single_output_spec one_output_net.
Proof.
  intros [H W] classes g m g' Hm. unfold one_output_net in Hm.
  apply bind_inv in Hm. destruct Hm as (X_input & g0 & HX & Hm).
  apply bind_inv in Hm. destruct Hm as (X & g1 & _ & Hm).
  apply bind_inv in Hm. destruct Hm as (output & g2 & _ & Hm).
  inversion Hm; subst m g2; clear Hm. cbn [inputs outputs fst snd].
  split; [|reflexivity].
  exists X_input. split; [reflexivity|].
  unfold Input in HX. cbn [fst snd] in HX.
  destruct (forallb _ _); [|discriminate].
  apply add_node_inv in HX. destruct HX as ((HS & _) & _).
  unfold height, width. rewrite HS. cbn. auto.
Qed.

(** The two if-chains, name by name. *)
Lemma supported_cases name :
  In name supported ->
  name = "ResNet50" \/ name = "MobileNetV1" \/ name = "MobileNetV2" \/
  name = "GoogLeNet" \/ name = "VGG16" \/ name = "VGG13" \/ name = "VGG11".
Proof. cbn. intuition auto. Qed.

Lemma unsupported_eqb name :
  ~ In name supported ->
  String.eqb name "ResNet50" = false /\ String.eqb name "MobileNetV1" = false /\
  String.eqb name "MobileNetV2" = false /\ String.eqb name "GoogLeNet" = false /\
  String.eqb name "VGG16" = false /\ String.eqb name "VGG13" = false /\
  String.eqb name "VGG11" = false.
Proof.
  intros Hn. repeat split; apply String.eqb_neq; intros ->; apply Hn; cbn; auto 10.
Qed.

Lemma get_model_google_net Cfg Asm classes_numbers g :
  MODEL_TYPE Cfg = "GoogLeNet" ->
  get_model Cfg Asm classes_numbers g =
  (model <- GoogLeNet.google_net
              (GoogLeNet.__init__ (GOOGLE_NET_INPUT_SIZE Cfg) classes_numbers) ;;
   ret (google_net_compile model, GOOGLE_NET_INPUT_SIZE Cfg)) g.
Proof. intros Hn. unfold get_model. rewrite Hn. reflexivity. Qed.

Lemma get_model_google_net_inv Cfg Asm classes_numbers g model input_size g' :
  MODEL_TYPE Cfg = "GoogLeNet" ->
  get_model Cfg Asm classes_numbers g = OK (model, input_size, g') ->
  input_size = GOOGLE_NET_INPUT_SIZE Cfg /\
  exists m,
    model = google_net_compile m /\
    google_net_graph (fst input_size) (snd input_size) classes_numbers m.
Proof.
  intros Hn Hg. rewrite get_model_google_net in Hg by exact Hn.
  apply bind_inv in Hg. destruct Hg as (m & g1 & Hm & Hr).
  inversion Hr; subst model input_size g1; clear Hr.
  split; [reflexivity|]. exists m. split; [reflexivity|].
  destruct (GOOGLE_NET_INPUT_SIZE Cfg) as [H W] eqn:E. cbn [fst snd].
  pose proof (google_net_fails_otherwise H W classes_numbers g) as Hbad.
  pose proof (google_net_returns_large H W classes_numbers g) as Hok.
  destruct (Z_lt_le_dec H 193);
    [exfalso; destruct Hbad as [e He]; [lia | congruence]|].
  destruct (Z_lt_le_dec W 193);
    [exfalso; destruct Hbad as [e He]; [lia | congruence]|].
  destruct (Z_lt_le_dec classes_numbers 0);
    [exfalso; destruct Hbad as [e He]; [lia | congruence]|].
  eapply returns_det; [apply Hok; lia | exact Hm].
Qed.

Lemma get_model_google_net_returns Cfg Asm classes_numbers g :
  MODEL_TYPE Cfg = "GoogLeNet" ->
  193 <= fst (GOOGLE_NET_INPUT_SIZE Cfg) ->
  193 <= snd (GOOGLE_NET_INPUT_SIZE Cfg) ->
  0 <= classes_numbers ->
  exists model g',
    get_model Cfg Asm classes_numbers g = OK (model, GOOGLE_NET_INPUT_SIZE Cfg, g').
Proof.
  intros Hn HH HW Hc. rewrite get_model_google_net by exact Hn.
  destruct (GOOGLE_NET_INPUT_SIZE Cfg) as [H W]. cbn [fst snd] in HH, HW.
  destruct (google_net_returns_large H W classes_numbers g) as (m & g' & Hm & _);
    try lia.
  exists (google_net_compile m), g'. unfold bind. rewrite Hm. reflexivity.
Qed.

Lemma declared_google_net Cfg :
  MODEL_TYPE Cfg = "GoogLeNet" -> declared_input_size Cfg = GOOGLE_NET_INPUT_SIZE Cfg.
Proof. intros Hn. unfold declared_input_size. rewrite Hn. reflexivity. Qed.

Lemma google_net_compile_recipe H W classes_numbers m :
  google_net_graph H W classes_numbers m ->
  google_net_recipe (google_net_compile m).
Proof.
  intros (_ & HN & _). unfold google_net_recipe.
  eexists. split; [reflexivity|]. split; [reflexivity|].
  unfold loss_weight.
  change (output_names (google_net_compile m)) with (output_names m).
  rewrite HN. cbn. repeat split.
Qed.

(** C5.  On the GoogLeNet branch, whatever [get_model] returns was
    compiled with the three categorical cross-entropy losses named
    [output], [output_aux_1], [output_aux_2], the loss weights 1, 0.3 and
    0.3 for them (0.3 < 1), and SGD with learning rate 0.1 and momentum
    0.9; and it does return whenever the declared resolution is at least
    193x193 and the class count is not negative. *)
Theorem get_model_google_net_recipe Cfg Asm classes_numbers g :
  MODEL_TYPE Cfg = "GoogLeNet" ->
  (forall model input_size g',
      get_model Cfg Asm classes_numbers g = OK (model, input_size, g') ->
      google_net_recipe model)
  /\ (193 <= fst (GOOGLE_NET_INPUT_SIZE Cfg) ->
      193 <= snd (GOOGLE_NET_INPUT_SIZE Cfg) ->
      0 <= classes_numbers ->
      exists model g',
        get_model Cfg Asm classes_numbers g
        = OK (model, GOOGLE_NET_INPUT_SIZE Cfg, g')).
Proof.
  intros Hn. split; [|apply get_model_google_net_returns; exact Hn].
  intros model input_size g' Hg.
  destruct (get_model_google_net_inv _ _ _ _ _ _ _ Hn Hg) as (_ & m & -> & Hm).
  eapply google_net_compile_recipe. exact Hm.
Qed.

Lemma get_model_google_net_recipe_witness :
  exists model g',
    get_model (Cfg_example "GoogLeNet") Asm_example 10 [] = OK (model, (224, 224), g') /\
    google_net_recipe model.
Proof.
  destruct (get_model_google_net_recipe (Cfg_example "GoogLeNet") Asm_example 10 []
                                        eq_refl) as [Hpartial Htotal].
  destruct Htotal as (model & g' & Hg); [cbn; lia | cbn; lia | lia |].
  exists model, g'. split; [exact Hg|]. apply (Hpartial _ _ _ Hg).
Defined.

(** C9.  On the GoogLeNet branch the optimizer [compile] receives is the
    second one bound to [optimizer], SGD with learning rate 0.1 and
    momentum 0.9, not the first (learning rate 0.01, momentum 0.9,
    nesterov False), which is rebound before use. *)
Theorem get_model_google_net_optimizer Cfg Asm classes_numbers g model input_size g' :
  MODEL_TYPE Cfg = "GoogLeNet" ->
  get_model Cfg Asm classes_numbers g = OK (model, input_size, g') ->
  exists c,
    compiled model = Some c /\
    c_optimizer c = SGD (1 # 10) (9 # 10) false /\
    c_optimizer c <> SGD (1 # 100) (9 # 10) false.
Proof.
  intros Hn Hg.
  destruct (get_model_google_net_inv _ _ _ _ _ _ _ Hn Hg) as (_ & m & -> & _).
  eexists. split; [reflexivity|]. cbn. split; [reflexivity | discriminate].
Qed.

Lemma get_model_google_net_optimizer_witness :
  exists model g',
    get_model (Cfg_example "GoogLeNet") Asm_example 10 [] = OK (model, (224, 224), g') /\
    exists c,
      compiled model = Some c /\
      c_optimizer c = SGD (1 # 10) (9 # 10) false /\
      c_optimizer c <> SGD (1 # 100) (9 # 10) false.
Proof.
  destruct (get_model_google_net_returns (Cfg_example "GoogLeNet") Asm_example 10 []
                                         eq_refl)
    as (model & g' & Hg); [cbn; lia | cbn; lia | lia |].
  exists model, g'. split; [exact Hg|].
  exact (get_model_google_net_optimizer (Cfg_example "GoogLeNet") Asm_example 10 []
                                        model (224, 224) g' eq_refl Hg).
Defined.

(** C8.  For a model name outside the supported set, [get_model] and
    [load_model] both raise [Exception('Invalid model type!')], whatever
    the assemblers and the framework loader would do: nothing is
    assembled or loaded and no graph is returned. *)
Theorem unknown_model_type_raises Cfg Asm loader classes_numbers model_path g :
  ~ In (MODEL_TYPE Cfg) supported ->
  get_model Cfg Asm classes_numbers g = Raise (Exception "Invalid model type!") /\
  load_model Cfg loader model_path g = Raise (Exception "Invalid model type!").
Proof.
  intros Hn.
  destruct (unsupported_eqb _ Hn) as (E1 & E2 & E3 & E4 & E5 & E6 & E7).
  unfold get_model, load_model.
  rewrite E1, E2, E3, E4, E5, E6, E7. split; reflexivity.
Qed.

Lemma unknown_model_type_raises_witness :
  get_model (Cfg_example "FooNet") Asm_example 10 []
  = Raise (Exception "Invalid model type!") /\
  load_model (Cfg_example "FooNet") load_example "./models/cifar-10/FooNet.h5" []
  = Raise (Exception "Invalid model type!").
Proof.
  apply (unknown_model_type_raises (Cfg_example "FooNet") Asm_example load_example).
  cbn. intros H.
  repeat (destruct H as [H | H]; [discriminate|]). exact H.
Defined.

(** Both chains pair the model with the constant declared for its name. *)
Lemma load_model_supported Cfg loader model_path g :
  In (MODEL_TYPE Cfg) supported ->
  load_model Cfg loader model_path g =
  (model <- loader model_path ;; ret (model, declared_input_size Cfg)) g.
Proof.
  intros Hsup.
  destruct (supported_cases _ Hsup) as [Hn|[Hn|[Hn|[Hn|[Hn|[Hn|Hn]]]]]];
    unfold load_model, declared_input_size; rewrite Hn; reflexivity.
Qed.




End FactoryFacts.

(** ** The inference driver *)

Module InferFacts.
Import Numpy Config InferTflite InferExamples.
Open Scope result_scope.

(** [np.argmax] of a 0-d value is 0. *)
Lemma argmax_scalar {A} (gtb : A -> A -> bool) (a : A) :
  argmax gtb (Scalar a) = OK 0.
Proof. reflexivity. Qed.

(** Whenever the primary output tensor holds a batch of rows of
    probabilities (shape (1, n), as every classifier of the repository
    produces), [output_data[0][0]] is the first probability of the first
    row, a scalar, and the label is the first class name whatever the
    probabilities are. *)
Lemma label_is_first_class {A} (gtb : A -> A -> bool) Cfg interpreter load_images
      astype_float32 input_0 output_0 p row rows :
  py_index (get_input_details A interpreter) 0 = OK input_0 ->
  py_index (get_output_details A interpreter) 0 = OK output_0 ->
  invoke A interpreter
         (set_tensor A (allocate_tensors A interpreter) (index input_0)
                     (astype_float32
                        (load_images ["./samples/11.png"]
                                     (firstn 2 (skipn 1 (shape input_0))))))
         (index output_0)
  = Some (Array (Array (Scalar p :: row) :: rows)) ->
  label A gtb Cfg interpreter load_images astype_float32
  = py_index (CIFAR_10_CLASS_NAMES Cfg) 0.
Proof.
  intros Hin Hout Hrun. unfold label.
  rewrite Hin. cbn [rbind]. rewrite Hout. cbn [rbind].
  unfold get_tensor. rewrite Hrun. reflexivity.
Qed.

(** C1 at the failing input.  The output tensor is [[0.01, 0.9, ...]]:
    the argmax of the probability vector [output_data[0]] is 1
    (automobile), but the script takes the argmax of
    [output_data[0][0]], the scalar 0.01, which is 0, and reports
    airplane. *)
Theorem label_takes_argmax_of_a_scalar model_type load_images astype_float32 :
  label Q Qgtb (Cfg_example model_type) (interpreter_writing output_1x10)
        load_images astype_float32 = OK "airplane"
  /\ (row <- getitem output_1x10 0 ;; argmax Qgtb row) = OK 1
  /\ py_index (CIFAR_10_CLASS_NAMES (Cfg_example model_type)) 1 = OK "automobile".
Proof. repeat split. Qed.

End InferFacts.


(** ** Wiring: every layer call appends one node *)

Module WiringFacts.
Import Keras GoogLeNet Outcomes WiringSpec KerasFacts.
Open Scope keras_scope.

Lemma add_node_emits l inbound s : emits l (map kt_id inbound) (add_node l inbound s).
Proof.
  intros g Y g' H. apply add_node_inv in H.
  destruct H as ((_ & HL & HI) & Hid & Hg). auto.
Qed.

Lemma windowed_emits l ch window strides pad X :
  emits l [kt_id X] (windowed l ch window strides pad X).
Proof.
  intros g Y g' H. unfold windowed in H.
  destruct (negb (pair_pos window && pair_pos strides)); [discriminate|].
  destruct (kt_shape X) as [|b [|h [|w [|c [|? ?]]]]]; try discriminate.
  destruct (size_ok _ _ && size_ok _ _); [|discriminate].
  exact (add_node_emits _ [X] _ _ _ _ H).
Qed.

Lemma Conv2D_emits filters kernel_size strides pad act init X :
  emits (LConv2D filters kernel_size strides pad act init) [kt_id X]
        (Conv2D filters kernel_size strides pad act init X).
Proof.
  intros g Y g' H. unfold Conv2D in H.
  destruct (filters <=? 0); [discriminate|].
  apply (windowed_emits _ (fun _ => Some filters) kernel_size strides pad X).
  destruct (kt_shape X) as [|b [|h [|w [|[c|] [|? ?]]]]]; try exact H; discriminate.
Qed.

Lemma MaxPooling2D_emits pool_size strides pad X :
  emits (LMaxPooling2D pool_size strides pad) [kt_id X]
        (MaxPooling2D pool_size strides pad X).
Proof. apply windowed_emits. Qed.

Lemma AveragePooling2D_emits pool_size strides pad X :
  emits (LAveragePooling2D pool_size strides pad) [kt_id X]
        (AveragePooling2D pool_size strides pad X).
Proof. apply windowed_emits. Qed.

Lemma Flatten_emits X : emits LFlatten [kt_id X] (Flatten X).
Proof.
  intros g Y g' H. unfold Flatten in H.
  destruct (kt_shape X); [discriminate|].
  exact (add_node_emits _ [X] _ _ _ _ H).
Qed.

Lemma Dropout_emits rate X : emits (LDropout rate) [kt_id X] (Dropout rate X).
Proof.
  intros g Y g' H. unfold Dropout in H.
  destruct (Qle_bool 0 rate && Qle_bool rate 1); [|discriminate].
  exact (add_node_emits _ [X] _ _ _ _ H).
Qed.

Lemma Dense_emits units act name init X :
  emits (LDense units act name init) [kt_id X] (Dense units act name init X).
Proof.
  intros g Y g' H. unfold Dense in H.
  destruct (units <? 0); [discriminate|].
  destruct (rev (kt_shape X)) as [|[d|] [|? ?]]; try discriminate.
  exact (add_node_emits _ [X] _ _ _ _ H).
Qed.

Lemma Input_emits s : emits (LInput s) [] (Input s).
Proof.
  intros g Y g' H. unfold Input in H.
  destruct (forallb _ s); [|discriminate].
  exact (add_node_emits _ [] _ _ _ _ H).
Qed.

Lemma concatenate_emits ins axis :
  emits (LConcatenate axis) (map kt_id ins) (concatenate ins axis).
Proof.
  intros g Y g' H. unfold concatenate in H.
  destruct (map kt_shape ins) as [|s0 ss]; [discriminate|].
  destruct (norm_axis axis (List.length s0)) as [i|]; [|discriminate].
  match type of H with context [forallb ?f ss] => destruct (forallb f ss) end;
    [|discriminate].
  destruct (merge_all _ _); [|discriminate].
  exact (add_node_emits _ ins _ _ _ _ H).
Qed.

(** *** Composition *)

Lemma alike_ret {A} (R : A -> A -> Prop) a1 a2 : R a1 a2 -> alike R (ret a1) (ret a2).
Proof.
  intros HR g1 g2 b1 g1' b2 g2' Hw H1 H2.
  inversion H1; inversion H2; subst. auto.
Qed.

Lemma alike_bind {A B} (R : A -> A -> Prop) (T : B -> B -> Prop)
      (m1 m2 : K A) (f1 f2 : A -> K B) :
  alike R m1 m2 ->
  (forall a1 a2, R a1 a2 -> alike T (f1 a1) (f2 a2)) ->
  alike T (bind m1 f1) (bind m2 f2).
Proof.
  intros Hm Hf g1 g2 b1 g1' b2 g2' Hw H1 H2.
  apply bind_inv in H1. destruct H1 as (a1 & h1 & Ha1 & Hb1).
  apply bind_inv in H2. destruct H2 as (a2 & h2 & Ha2 & Hb2).
  destruct (Hm _ _ _ _ _ _ Hw Ha1 Ha2) as [Hw' HR].
  exact (Hf _ _ HR _ _ _ _ _ _ Hw' Hb1 Hb2).
Qed.

Lemma same_wiring_length g1 g2 : same_wiring g1 g2 -> List.length g1 = List.length g2.
Proof.
  unfold same_wiring. intros H.
  rewrite <- (length_map skeleton g1), <- (length_map skeleton g2), H. reflexivity.
Qed.

Lemma alike_emits l1 l2 ins1 ins2 m1 m2 :
  ins1 = ins2 -> emits l1 ins1 m1 -> emits l2 ins2 m2 -> alike same_id m1 m2.
Proof.
  intros <- E1 E2 g1 g2 Y1 g1' Y2 g2' Hw H1 H2.
  destruct (E1 _ _ _ H1) as (-> & Hid1 & _ & Hin1).
  destruct (E2 _ _ _ H2) as (-> & Hid2 & _ & Hin2).
  pose proof (same_wiring_length _ _ Hw) as Hlen.
  split.
  - unfold same_wiring in *. rewrite !map_app, Hw. cbn.
    unfold skeleton. rewrite Hid1, Hid2, Hin1, Hin2, Hlen. reflexivity.
  - unfold same_id. congruence.
Qed.

Lemma appends_ret {A} (a : A) : appends 0 (ret a).
Proof.
  intros g b g' H. inversion H; subst. exists []. rewrite app_nil_r. auto.
Qed.

Lemma appends_bind {A B} n k (m : K A) (f : A -> K B) :
  appends n m -> (forall a, appends k (f a)) -> appends (n + k) (bind m f).
Proof.
  intros Hm Hf g b g'' H.
  apply bind_inv in H. destruct H as (a & g' & Ha & Hb).
  destruct (Hm _ _ _ Ha) as (new1 & -> & L1).
  destruct (Hf a _ _ _ Hb) as (new2 & -> & L2).
  exists (new1 ++ new2). rewrite app_assoc, length_app, L1, L2. auto.
Qed.

Lemma appends_emits l ins m : emits l ins m -> appends 1 m.
Proof.
  intros E g Y g' H. destruct (E _ _ _ H) as (-> & _).
  exists [Y]. auto.
Qed.

(** *** The blocks and the assembler *)

Ltac wire lem :=
  eapply alike_bind;
  [ eapply alike_emits; [ | apply lem | apply lem ];
    unfold same_id in *; cbn [map]; congruence
  | intros ? ? ? ].

Ltac count lem :=
  apply (appends_bind 1); [ eapply appends_emits; apply lem | intros ? ].

(** The wiring of an inception block depends on nothing but the tensor it
    is applied to: not on the filter counts, kernel sizes or pool size. *)
Lemma _inception_block_alike X1 X2 f1 r1 k1 p1 i1 f2 r2 k2 p2 i2 :
  same_id X1 X2 ->
  alike same_id (_inception_block X1 f1 r1 k1 p1 i1)
                (_inception_block X2 f2 r2 k2 p2 i2).
Proof.
  intros HX.
  destruct f1 as [[? ?] ?], r1 as [[? ?] ?], k1 as [[? ?] ?],
           f2 as [[? ?] ?], r2 as [[? ?] ?], k2 as [[? ?] ?].
  unfold _inception_block.
  wire Conv2D_emits. wire Conv2D_emits. wire Conv2D_emits.
  wire Conv2D_emits. wire Conv2D_emits. wire MaxPooling2D_emits.
  wire Conv2D_emits. wire concatenate_emits.
  apply alike_ret. assumption.
Qed.

Lemma _inception_block_appends X f r k p i : appends 8 (_inception_block X f r k p i).
Proof.
  destruct f as [[? ?] ?], r as [[? ?] ?], k as [[? ?] ?].
  unfold _inception_block.
  count Conv2D_emits. count Conv2D_emits. count Conv2D_emits.
  count Conv2D_emits. count Conv2D_emits. count MaxPooling2D_emits.
  count Conv2D_emits. count concatenate_emits.
  apply appends_ret.
Qed.

Lemma _auxiliary_classifier_alike s1 s2 X1 X2 n1 n2 i1 i2 :
  same_id X1 X2 ->
  alike same_id (_auxiliary_classifier s1 X1 n1 i1)
                (_auxiliary_classifier s2 X2 n2 i2).
Proof.
  intros HX. unfold _auxiliary_classifier.
  wire AveragePooling2D_emits. wire Conv2D_emits. wire Flatten_emits.
  wire Dense_emits. wire Dropout_emits. wire Dense_emits.
  apply alike_ret. assumption.
Qed.

Lemma _auxiliary_classifier_appends self X name init :
  appends 6 (_auxiliary_classifier self X name init).
Proof.
  unfold _auxiliary_classifier.
  count AveragePooling2D_emits. count Conv2D_emits. count Flatten_emits.
  count Dense_emits. count Dropout_emits. count Dense_emits.
  apply appends_ret.
Qed.

Ltac wire_block :=
  eapply alike_bind;
  [ first [ apply _inception_block_alike | apply _auxiliary_classifier_alike ];
    assumption
  | intros ? ? ? ].

Lemma google_net_alike s1 s2 : alike same_ports (google_net s1) (google_net s2).
Proof.
  unfold google_net, inception.
  eapply alike_bind;
    [eapply alike_emits; [reflexivity | apply Input_emits | apply Input_emits]|].
  intros X_input1 X_input2 Hin.
  wire Conv2D_emits. wire MaxPooling2D_emits. wire Conv2D_emits.
  wire Conv2D_emits. wire MaxPooling2D_emits.
  wire_block. wire_block. wire MaxPooling2D_emits.
  wire_block. wire_block.
  wire_block. wire_block. wire_block. wire_block.
  wire_block. wire MaxPooling2D_emits.
  wire_block. wire_block.
  wire AveragePooling2D_emits. wire Flatten_emits. wire Dropout_emits.
  wire Dense_emits. wire Dense_emits.
  apply alike_ret. unfold same_ports, same_id in *. cbn [inputs outputs map].
  split; congruence.
Qed.

Lemma google_net_appends self : appends 97 (google_net self).
Proof.
  unfold google_net, inception.
  change 97%nat with (1 + (1 + (1 + (1 + (1 + (1 + (8 + (8 + (1 + (8 + (6 +
    (8 + (8 + (8 + (6 + (8 + (1 + (8 + (8 + (1 + (1 + (1 + (1 + (1 + 0
    ))))))))))))))))))))))))%nat.
  count Input_emits.
  count Conv2D_emits. count MaxPooling2D_emits. count Conv2D_emits.
  count Conv2D_emits. count MaxPooling2D_emits.
  apply (appends_bind 8); [apply _inception_block_appends | intros ?].
  apply (appends_bind 8); [apply _inception_block_appends | intros ?].
  count MaxPooling2D_emits.
  apply (appends_bind 8); [apply _inception_block_appends | intros ?].
  apply (appends_bind 6); [apply _auxiliary_classifier_appends | intros ?].
  apply (appends_bind 8); [apply _inception_block_appends | intros ?].
  apply (appends_bind 8); [apply _inception_block_appends | intros ?].
  apply (appends_bind 8); [apply _inception_block_appends | intros ?].
  apply (appends_bind 6); [apply _auxiliary_classifier_appends | intros ?].
  apply (appends_bind 8); [apply _inception_block_appends | intros ?].
  count MaxPooling2D_emits.
  apply (appends_bind 8); [apply _inception_block_appends | intros ?].
  apply (appends_bind 8); [apply _inception_block_appends | intros ?].
  count AveragePooling2D_emits. count Flatten_emits. count Dropout_emits.
  count Dense_emits. count Dense_emits.
  apply appends_ret.
Qed.

End WiringFacts.


(** ** Topology of the blocks and of the assembled graph *)

Module TopologyFacts.
Import Keras GoogLeNet Outcomes WiringSpec KerasFacts WiringFacts.
Open Scope keras_scope.

Ltac node H lem :=
  let Y := fresh "N" in
  let g' := fresh "g" in
  let HY := fresh "HN" in
  apply bind_inv in H; destruct H as (Y & g' & HY & H);
  apply lem in HY; destruct HY as (-> & ? & ? & ?).

(** X1.  Whenever [_inception_block] returns, it has appended exactly eight
    nodes to the graph context, in this order and changing no other node:
    the 1x1 convolution, the 3x3 reduction and the 3x3 convolution fed by
    it, the 5x5 reduction and the 5x5 convolution fed by it, the max
    pooling and the projection fed by it, and the concatenation on the last
    axis of (1x1, 3x3, 5x5, projection) in that order; the four branches
    all start from the block's input. *)
Theorem _inception_block_nodes X f1 f3 f5 r3 r5 pp k1 k3 k5 ps init g Y g' :
  _inception_block X (f1, f3, f5) (r3, r5, pp) (k1, k3, k5) ps init g = OK (Y, g') ->
  exists X_1by1 X_reduced_3by3 X_3by3 X_reduced_5by5 X_5by5 X_max_pooling X_projection,
    g' = g ++ [X_1by1; X_reduced_3by3; X_3by3; X_reduced_5by5; X_5by5;
               X_max_pooling; X_projection; Y] /\
    map kt_id [X_1by1; X_reduced_3by3; X_3by3; X_reduced_5by5; X_5by5;
               X_max_pooling; X_projection; Y] = seq (List.length g) 8 /\
    wired (LConv2D f1 k1 (1, 1) same relu (InitSeed init 0)) [X] X_1by1 /\
    wired (LConv2D r3 (1, 1) (1, 1) same relu (InitSeed init 0)) [X] X_reduced_3by3 /\
    wired (LConv2D f3 k3 (1, 1) same relu (InitSeed init 0)) [X_reduced_3by3] X_3by3 /\
    wired (LConv2D r5 (1, 1) (1, 1) same relu (InitSeed init 0)) [X] X_reduced_5by5 /\
    wired (LConv2D f5 k5 (1, 1) same relu (InitSeed init 0)) [X_reduced_5by5] X_5by5 /\
    wired (LMaxPooling2D ps (1, 1) same) [X] X_max_pooling /\
    wired (LConv2D pp (1, 1) (1, 1) same relu (InitSeed init 0)) [X_max_pooling]
          X_projection /\
    wired (LConcatenate (-1)) [X_1by1; X_3by3; X_5by5; X_projection] Y.
Proof.
  unfold _inception_block. intros H.
  node H Conv2D_emits. node H Conv2D_emits. node H Conv2D_emits.
  node H Conv2D_emits. node H Conv2D_emits. node H MaxPooling2D_emits.
  node H Conv2D_emits. node H concatenate_emits.
  inversion H; subst; clear H.
  exists N, N0, N1, N2, N3, N4, N5.
  split; [repeat rewrite <- app_assoc; reflexivity|].
  split.
  - cbn [map seq].
    repeat match goal with Hid : kt_id _ = _ |- _ => rewrite Hid; clear Hid end.
    repeat rewrite length_app. cbn [List.length].
    repeat (f_equal; try lia).
  - unfold wired. cbn [map]. repeat split; assumption.
Qed.

(** X2.  Whenever [_naive_inception_block] returns, it has appended exactly
    five nodes, changing no other: the three [valid] convolutions and the
    [same] max pooling, each applied to the block's input, and the
    concatenation of (1x1, 3x3, 5x5, pooled) in that order, made with
    axis 0. *)
Theorem _naive_inception_block_nodes X f1 f3 f5 k1 k3 k5 ps init g Y g' :
  _naive_inception_block X (f1, f3, f5) (k1, k3, k5) ps init g = OK (Y, g') ->
  exists X_1by1 X_3by3 X_5by5 X_max_pooling,
    g' = g ++ [X_1by1; X_3by3; X_5by5; X_max_pooling; Y] /\
    map kt_id [X_1by1; X_3by3; X_5by5; X_max_pooling; Y] = seq (List.length g) 5 /\
    wired (LConv2D f1 k1 (1, 1) valid relu (InitSeed init 0)) [X] X_1by1 /\
    wired (LConv2D f3 k3 (1, 1) valid relu (InitSeed init 0)) [X] X_3by3 /\
    wired (LConv2D f5 k5 (1, 1) valid relu (InitSeed init 0)) [X] X_5by5 /\
    wired (LMaxPooling2D ps (1, 1) same) [X] X_max_pooling /\
    wired (LConcatenate 0) [X_1by1; X_3by3; X_5by5; X_max_pooling] Y.
Proof.
  unfold _naive_inception_block. intros H.
  node H Conv2D_emits. node H Conv2D_emits. node H Conv2D_emits.
  node H MaxPooling2D_emits. node H concatenate_emits.
  inversion H; subst; clear H.
  exists N, N0, N1, N2.
  split; [repeat rewrite <- app_assoc; reflexivity|].
  split.
  - cbn [map seq].
    repeat match goal with Hid : kt_id _ = _ |- _ => rewrite Hid; clear Hid end.
    repeat rewrite length_app. cbn [List.length].
    repeat (f_equal; try lia).
  - unfold wired. cbn [map]. repeat split; assumption.
Qed.

Lemma _inception_block_nodes_witness :
  exists X_1by1 X_reduced_3by3 X_3by3 X_reduced_5by5 X_5by5 X_max_pooling
         X_projection Y,
    map kt_id [X_1by1; X_reduced_3by3; X_3by3; X_reduced_5by5; X_5by5;
               X_max_pooling; X_projection; Y] = seq 1 8 /\
    wired (LConv2D 128 (3, 3) (1, 1) same relu (InitSeed random_uniform 0))
          [X_reduced_3by3] X_3by3 /\
    wired (LConcatenate (-1)) [X_1by1; X_3by3; X_5by5; X_projection] Y.
Proof.
  destruct (_inception_block GraphSpec.X_28x28x192 (64, 128, 32) (96, 16, 32)
                             default_kernel_size default_pool_size random_uniform
                             [GraphSpec.X_28x28x192])
    as [[Y g'] | e] eqn:E; [|vm_compute in E; discriminate].
  destruct (_inception_block_nodes _ _ _ _ _ _ _ _ _ _ _ _ _ _ _ E)
    as (N1 & N2 & N3 & N4 & N5 & N6 & N7 & _ & Hid & _ & _ & H3 & _ & _ & _ & _ & HY).
  exists N1, N2, N3, N4, N5, N6, N7, Y. auto.
Defined.

Lemma _naive_inception_block_nodes_witness :
  exists X_1by1 X_3by3 X_5by5 X_max_pooling Y,
    map kt_id [X_1by1; X_3by3; X_5by5; X_max_pooling; Y] = seq 1 5 /\
    wired (LConcatenate 0) [X_1by1; X_3by3; X_5by5; X_max_pooling] Y.
Proof.
  destruct (_naive_inception_block GraphSpec.X_8x8x4 (4, 4, 4)
                                   ((1, 1), (1, 1), (1, 1)) default_pool_size
                                   random_uniform [GraphSpec.X_8x8x4])
    as [[Y g'] | e] eqn:E; [|vm_compute in E; discriminate].
  destruct (_naive_inception_block_nodes _ _ _ _ _ _ _ _ _ _ _ _ E)
    as (N1 & N2 & N3 & N4 & _ & Hid & _ & _ & _ & _ & HY).
  exists N1, N2, N3, N4, Y. auto.
Defined.

(** *** The assembled graph *)

Lemma reference_run :
  exists m0 g0,
    google_net (__init__ (224, 224) 10) [] = OK (m0, g0) /\
    map skeleton g0 = reference_skeleton /\
    (map kt_id (inputs m0), map kt_id (outputs m0)) = reference_ports.
Proof. vm_compute. eexists; eexists. repeat split. Qed.

(** Whatever the input size and class count, the graph assembled in an
    empty context has the reference wiring. *)
Lemma google_net_skeleton self m g :
  google_net self [] = OK (m, g) ->
  map skeleton g = reference_skeleton /\
  (map kt_id (inputs m), map kt_id (outputs m)) = reference_ports.
Proof.
  intros H. destruct reference_run as (m0 & g0 & H0 & Hsk & Hports).
  destruct (google_net_alike self (__init__ (224, 224) 10) [] [] m g m0 g0
                             eq_refl H H0) as [Hw [Hin Hout]].
  unfold same_wiring in Hw. rewrite Hw, Hin, Hout. auto.
Qed.

Lemma map_fst_skeleton g : map fst (map skeleton g) = map kt_id g.
Proof. rewrite map_map. reflexivity. Qed.

(** X7.  The wiring of the graph [google_net] assembles does not depend on
    the input resolution or the class count: two calls that return, made in
    contexts of one wiring, leave contexts of one wiring (the same node ids
    consuming the same node ids) and models whose input and output nodes
    have the same ids. *)
Theorem google_net_wiring_independent self1 self2 g1 g2 m1 g1' m2 g2' :
  map skeleton g1 = map skeleton g2 ->
  google_net self1 g1 = OK (m1, g1') ->
  google_net self2 g2 = OK (m2, g2') ->
  map skeleton g1' = map skeleton g2' /\
  map kt_id (inputs m1) = map kt_id (inputs m2) /\
  map kt_id (outputs m1) = map kt_id (outputs m2).
Proof.
  intros Hw H1 H2.
  destruct (google_net_alike self1 self2 g1 g2 m1 g1' m2 g2' Hw H1 H2)
    as [Hw' [Hin Hout]].
  split; [exact Hw'|]. split; assumption.
Qed.

Lemma google_net_wiring_independent_witness :
  exists m1 g1' m2 g2',
    google_net (__init__ (224, 224) 10) [] = OK (m1, g1') /\
    google_net (__init__ (256, 320) 5) [] = OK (m2, g2') /\
    map skeleton g1' = map skeleton g2' /\
    map kt_id (outputs m1) = map kt_id (outputs m2).
Proof.
  destruct (google_net (__init__ (224, 224) 10) []) as [[m1 g1'] | e] eqn:E1;
    [|vm_compute in E1; discriminate].
  destruct (google_net (__init__ (256, 320) 5) []) as [[m2 g2'] | e] eqn:E2;
    [|vm_compute in E2; discriminate].
  exists m1, g1', m2, g2'.
  destruct (google_net_wiring_independent _ _ [] [] _ _ _ _ eq_refl E1 E2)
    as (Hw & _ & Hout).
  auto.
Defined.

(** X8.  Whenever [google_net] returns in an empty context, the graph is a
    directed acyclic graph of 97 nodes: node ids are the creation
    positions, no node consumes a node created after it, the only node
    that consumes nothing is the model's input node, and every node is
    needed by one of the three outputs (no dead layer). *)
Theorem google_net_graph_is_dag self m g :
  google_net self [] = OK (m, g) ->
  map kt_id g = seq 0 97 /\
  acyclic (map skeleton g) = true /\
  sources (map skeleton g) = map kt_id (inputs m) /\
  ancestors (map skeleton g) (map kt_id (outputs m)) = map kt_id g.
Proof.
  intros H. destruct (google_net_skeleton _ _ _ H) as [Hsk Hports].
  injection Hports as Hin Hout.
  rewrite <- map_fst_skeleton, Hsk, Hin, Hout.
  split; [|split; [|split]]; vm_compute; reflexivity.
Qed.

Lemma google_net_graph_is_dag_witness :
  exists m g,
    google_net (__init__ (224, 224) 10) [] = OK (m, g) /\
    map kt_id g = seq 0 97 /\
    acyclic (map skeleton g) = true.
Proof.
  destruct (google_net (__init__ (224, 224) 10) []) as [[m g] | e] eqn:E;
    [|vm_compute in E; discriminate].
  exists m, g. split; [reflexivity|].
  destruct (google_net_graph_is_dag _ _ _ E) as (Hid & Hac & _). auto.
Defined.

(** X9.  The auxiliary heads are read-only taps.  Whenever [google_net]
    returns in an empty context, with outputs (output, output_aux_1,
    output_aux_2): the main output depends on 85 nodes, none of them in an
    auxiliary head (nodes 31-36 and 61-66); [output_aux_1] depends on the
    trunk up to inception 4a (nodes 0-30) and its own six nodes;
    [output_aux_2] on the trunk up to inception 4d (nodes 0-30 and 37-60)
    and its own six nodes. *)
Theorem google_net_heads_are_taps self m g :
  google_net self [] = OK (m, g) ->
  exists output output_aux_1 output_aux_2,
    outputs m = [output; output_aux_1; output_aux_2] /\
    ancestors (map skeleton g) [kt_id output] = seq 0 31 ++ seq 37 24 ++ seq 67 30 /\
    ancestors (map skeleton g) [kt_id output_aux_1] = seq 0 37 /\
    ancestors (map skeleton g) [kt_id output_aux_2] = seq 0 31 ++ seq 37 30.
Proof.
  intros H. destruct (google_net_skeleton _ _ _ H) as [Hsk Hports].
  injection Hports as Hin Hout.
  destruct (outputs m) as [|o [|a1 [|a2 [|? ?]]]]; try discriminate.
  exists o, a1, a2. split; [reflexivity|].
  cbn [map] in Hout. injection Hout as Ho Ha1 Ha2.
  rewrite Hsk, Ho, Ha1, Ha2.
  split; [|split]; vm_compute; reflexivity.
Qed.

Lemma google_net_heads_are_taps_witness :
  exists m g output output_aux_1 output_aux_2,
    google_net (__init__ (224, 224) 10) [] = OK (m, g) /\
    outputs m = [output; output_aux_1; output_aux_2] /\
    ancestors (map skeleton g) [kt_id output_aux_1] = seq 0 37.
Proof.
  destruct (google_net (__init__ (224, 224) 10) []) as [[m g] | e] eqn:E;
    [|vm_compute in E; discriminate].
  destruct (google_net_heads_are_taps _ _ _ E) as (o & a1 & a2 & Ho & _ & Ha1 & _).
  exists m, g, o, a1, a2. auto.
Defined.

(** X6.  The graph context only grows: whenever they return,
    [_inception_block] has appended exactly 8 nodes to the context it was
    called in, [_auxiliary_classifier] exactly 6 and [google_net] exactly
    97, and every node that was in the context is still there,
    unchanged. *)
Theorem context_only_grows :
  (forall X f r k p i g Y g',
      _inception_block X f r k p i g = OK (Y, g') ->
      exists new, g' = g ++ new /\ List.length new = 8%nat)
  /\ (forall self X name init g Y g',
        _auxiliary_classifier self X name init g = OK (Y, g') ->
        exists new, g' = g ++ new /\ List.length new = 6%nat)
  /\ (forall self g m g',
        google_net self g = OK (m, g') ->
        exists new, g' = g ++ new /\ List.length new = 97%nat).
Proof.
  split; [|split].
  - intros X f r k p i g Y g' H. exact (_inception_block_appends X f r k p i g Y g' H).
  - intros self X name init g Y g' H.
    exact (_auxiliary_classifier_appends self X name init g Y g' H).
  - intros self g m g' H. exact (google_net_appends self g m g' H).
Qed.

End TopologyFacts.


(** ** More on the blocks, the heads and the assembler *)

Module BlockFacts.
Import Keras GoogLeNet Outcomes GraphSpec KerasFacts GoogLeNetFacts AssemblerFacts.
Open Scope keras_scope.

Lemma _naive_inception_block_shape X f1 f3 f5 k1 k3 k5 ps init g Y g' b h w c :
  kt_shape X = [b; h; w; c] ->
  _naive_inception_block X (f1, f3, f5) (k1, k3, k5) ps init g = OK (Y, g') ->
  exists r,
    merge_all [conv_output_length h (fst k1) valid 1;
               conv_output_length w (snd k1) valid 1; Some f1]
              [[conv_output_length h (fst k3) valid 1;
                conv_output_length w (snd k3) valid 1; Some f3];
               [conv_output_length h (fst k5) valid 1;
                conv_output_length w (snd k5) valid 1; Some f5];
               [h; w; c]] = Some r /\
    kt_shape Y = [match b with Some n => Some (n + (n + (n + (n + 0)))) | None => None end;
                  conv_output_length h (fst k1) valid 1;
                  conv_output_length w (snd k1) valid 1; Some f1].
Proof.
  intros HX H. unfold _naive_inception_block in H.
  apply bind_inv in H. destruct H as (X1 & g1 & H1 & H).
  apply bind_inv in H. destruct H as (X3 & g3 & H3 & H).
  apply bind_inv in H. destruct H as (X5 & g5 & H5 & H).
  apply bind_inv in H. destruct H as (Xp & gp & Hp & H).
  apply bind_inv in H. destruct H as (Yc & gc & Hc & H).
  inversion H; subst Yc gc; clear H.
  apply Conv2D_inv in H1. destruct H1 as (b1 & h1 & w1 & c1 & HX' & HX1 & _).
  rewrite HX in HX'. inversion HX'; subst b1 h1 w1 c1; clear HX'.
  apply Conv2D_inv in H3. destruct H3 as (b3 & h3 & w3 & c3 & HX' & HX3 & _).
  rewrite HX in HX'. inversion HX'; subst b3 h3 w3 c3; clear HX'.
  apply Conv2D_inv in H5. destruct H5 as (b5 & h5 & w5 & c5 & HX' & HX5 & _).
  rewrite HX in HX'. inversion HX'; subst b5 h5 w5 c5; clear HX'.
  apply windowed_inv in Hp. destruct Hp as (bp & hp & wp & cp & HX' & HXp & _).
  rewrite HX in HX'. inversion HX'; subst bp hp wp cp; clear HX'.
  cbn [fst snd] in HX1, HX3, HX5, HXp. rewrite !same_stride_1 in HXp.
  apply concatenate_inv in Hc.
  destruct Hc as (s0 & ss & i & r & Hm & Hi & Hmerge & HY & _).
  cbn [map] in Hm. rewrite HX1, HX3, HX5, HXp in Hm.
  inversion Hm; subst s0 ss; clear Hm.
  change (norm_axis 0 (List.length [b; conv_output_length h (fst k1) valid 1;
                                    conv_output_length w (snd k1) valid 1; Some f1]))
    with (Some 0%nat) in Hi.
  inversion Hi; subst i; clear Hi.
  exists r. split; [exact Hmerge|].
  rewrite HY. destruct b; reflexivity.
Qed.

(** X3.  On a feature map of known size (batch size unknown),
    [_naive_inception_block] returns only when every branch kernel is 1x1
    and every filter count equals the input's channel count, and what it
    then returns has exactly the input's shape: the concatenation along
    axis 0 adds no channel. *)
Theorem naive_inception_block_outcome X f1 f3 f5 k1 k3 k5 ps init g Y g' n m c :
  kt_shape X = [None; Some n; Some m; Some c] ->
  _naive_inception_block X (f1, f3, f5) (k1, k3, k5) ps init g = OK (Y, g') ->
  (k1, k3, k5) = ((1, 1), (1, 1), (1, 1)) /\
  (f1, f3, f5) = (c, c, c) /\
  kt_shape Y = kt_shape X.
Proof.
  intros HX H.
  pose proof (_naive_inception_block_only_1by1 _ _ _ _ _ _ _ _ _ _ _ _ _ _ _ _ HX H)
    as Hk.
  destruct (_naive_inception_block_shape _ _ _ _ _ _ _ _ _ _ _ _ _ _ _ _ HX H)
    as (r & Hm & HY).
  inversion Hk; subst. cbn [fst snd] in Hm, HY. rewrite !valid_stride_1 in Hm, HY.
  pose proof (fun s Hin x y => merge_all_agree _ _ _ Hm s Hin 2%nat x y) as Hag.
  assert (Hp := Hag [Some n; Some m; Some c] ltac:(cbn; auto) _ _ eq_refl eq_refl).
  assert (H3 := Hag _ ltac:(cbn; left; reflexivity) _ _ eq_refl eq_refl).
  assert (H5 := Hag _ ltac:(cbn; right; left; reflexivity) _ _ eq_refl eq_refl).
  subst. split; [reflexivity|]. split; [reflexivity|].
  rewrite HY, HX. repeat f_equal; lia.
Qed.

Lemma naive_inception_block_outcome_witness :
  exists Y g',
    _naive_inception_block X_8x8x4 (4, 4, 4) ((1, 1), (1, 1), (1, 1))
                           default_pool_size random_uniform [X_8x8x4] = OK (Y, g') /\
    kt_shape Y = kt_shape X_8x8x4.
Proof.
  destruct (_naive_inception_block X_8x8x4 (4, 4, 4) ((1, 1), (1, 1), (1, 1))
                                   default_pool_size random_uniform [X_8x8x4])
    as [[Y g'] | e] eqn:E; [|vm_compute in E; discriminate].
  exists Y, g'. split; [reflexivity|].
  exact (proj2 (proj2 (naive_inception_block_outcome
                          X_8x8x4 4 4 4 (1, 1) (1, 1) (1, 1) default_pool_size
                          random_uniform [X_8x8x4] Y g' 8 8 4 eq_refl E))).
Defined.

(** X4.  On a feature map of known size with defined channels,
    [_auxiliary_classifier] returns whenever the map is at least 5x5 and
    the class count is positive, and raises whenever the map is smaller
    than 5x5 (the 5x5 [valid] average pooling) or the class count is
    negative; whatever it returns is the output of the [Dense] softmax
    layer named [output_name], of shape (batch, classes), on a map of at
    least 5x5. *)
Theorem auxiliary_classifier_outcome self X output_name init g b h w c :
  kt_shape X = [b; Some h; Some w; Some c] ->
  (5 <= h -> 5 <= w -> 0 < classes self ->
   returns (_auxiliary_classifier self X output_name init) g
           (aux_output self output_name b))
  /\ (h < 5 \/ w < 5 \/ classes self < 0 ->
      fails (_auxiliary_classifier self X output_name init) g)
  /\ (forall Y g',
        _auxiliary_classifier self X output_name init g = OK (Y, g') ->
        5 <= h /\ 5 <= w /\ aux_output self output_name b Y).
Proof.
  intros HX.
  assert (Hbad : h < 5 \/ w < 5 \/ classes self < 0 ->
                 fails (_auxiliary_classifier self X output_name init) g).
  { intros Hcase.
    destruct (Z_lt_le_dec h 5);
      [eapply _auxiliary_classifier_fails_small; [exact HX | lia]|].
    destruct (Z_lt_le_dec w 5);
      [eapply _auxiliary_classifier_fails_small; [exact HX | lia]|].
    eapply _auxiliary_classifier_fails_classes; try eassumption. lia. }
  split; [|split].
  - intros Hh Hw Hc. eapply _auxiliary_classifier_returns; try eassumption. lia.
  - exact Hbad.
  - intros Y g' HY.
    assert (Hok : 5 <= h /\ 5 <= w /\ 0 <= classes self).
    { destruct (Z_lt_le_dec h 5) as [Hs|?];
        [|destruct (Z_lt_le_dec w 5) as [Hs|?];
          [|destruct (Z_lt_le_dec (classes self) 0) as [Hs|?]; [|lia]]];
        exfalso; destruct Hbad as [e He]; try lia; congruence. }
    destruct Hok as (Hh & Hw & Hc). split; [exact Hh|]. split; [exact Hw|].
    eapply returns_det; [|exact HY].
    eapply _auxiliary_classifier_returns; eassumption.
Qed.

Lemma auxiliary_classifier_outcome_witness :
  returns (_auxiliary_classifier (__init__ (224, 224) 10) X_28x28x192
                                 "output_aux_1" random_uniform) [X_28x28x192]
          (aux_output (__init__ (224, 224) 10) "output_aux_1" None).
Proof.
  apply (proj1 (auxiliary_classifier_outcome
                  (__init__ (224, 224) 10) X_28x28x192 "output_aux_1" random_uniform
                  [X_28x28x192] None 28 28 192 eq_refl));
    cbn; lia.
Defined.

(** X5.  Whenever [google_net] returns a model, in any context: the input
    size is at least 193x193 and the class count is not negative, the
    model has one input node of shape (None, H, W, 3), its three outputs
    are vectors of shape (None, classes), and it has not been compiled. *)
Theorem google_net_model self g m g' :
  google_net self g = OK (m, g') ->
  193 <= fst (input_shape self) /\ 193 <= snd (input_shape self) /\
  0 <= classes self /\
  (exists X_input,
      inputs m = [X_input] /\
      kt_shape X_input = [None; Some (fst (input_shape self));
                          Some (snd (input_shape self)); Some 3]) /\
  map kt_shape (outputs m) =
    [[None; Some (classes self)]; [None; Some (classes self)];
     [None; Some (classes self)]] /\
  compiled m = None.
Proof.
  destruct self as [[H W] num_classes]. cbn [input_shape classes fst snd].
  intros Hg.
  assert (Hsize : 193 <= H /\ 193 <= W /\ 0 <= num_classes).
  { destruct (Z_lt_le_dec H 193) as [Hs|?];
      [|destruct (Z_lt_le_dec W 193) as [Hs|?];
        [|destruct (Z_lt_le_dec num_classes 0) as [Hs|?]; [|lia]]];
      exfalso;
      destruct (google_net_fails_otherwise H W num_classes g) as [e He];
      try lia; congruence. }
  destruct Hsize as (HH & HW & Hc). repeat (split; [assumption|]).
  pose proof (returns_det _ _ _ _ _
                (google_net_returns_large H W num_classes g HH HW Hc) Hg)
    as ((X_input & HI & _ & HS) & _ & Hout & Hcomp).
  split; [exists X_input; auto | auto].
Qed.

Lemma google_net_model_witness :
  exists m g',
    google_net (__init__ (224, 224) 10) [] = OK (m, g') /\
    map kt_shape (outputs m) = [[None; Some 10]; [None; Some 10]; [None; Some 10]] /\
    compiled m = None.
Proof.
  destruct (google_net (__init__ (224, 224) 10) []) as [[m g'] | e] eqn:E;
    [|vm_compute in E; discriminate].
  exists m, g'. split; [reflexivity|].
  destruct (google_net_model _ _ _ _ E) as (_ & _ & _ & _ & Hout & Hc). auto.
Defined.

End BlockFacts.


(** ** More on the factory and the loader *)

Module DispatchFacts.
Import Keras Config ModelFactory Outcomes GraphSpec FactorySpec DispatchSpec.
Import KerasFacts AssemblerFacts FactoryFacts.
Open Scope keras_scope.

(** X10.  On the GoogLeNet branch [get_model] returns a compiled graph
    whenever the resolution [Cfg] declares is at least 193x193 and the
    class count is positive; it raises (the exception of the layer call
    that failed) whenever the declared height or width is below 193 or the
    class count is negative; whatever it returns comes with the declared
    resolution, which is then at least 193x193; and the assemblers of the
    other architectures play no part. *)
Theorem get_model_google_net_outcome Cfg Asm classes_numbers g H W :
  MODEL_TYPE Cfg = "GoogLeNet" ->
  GOOGLE_NET_INPUT_SIZE Cfg = (H, W) ->
  (193 <= H -> 193 <= W -> 0 < classes_numbers ->
   exists model g', get_model Cfg Asm classes_numbers g = OK (model, (H, W), g'))
  /\ (H < 193 \/ W < 193 \/ classes_numbers < 0 ->
      fails (get_model Cfg Asm classes_numbers) g)
  /\ (forall model input_size g',
        get_model Cfg Asm classes_numbers g = OK (model, input_size, g') ->
        input_size = (H, W) /\ 193 <= H /\ 193 <= W)
  /\ (forall Asm',
        get_model Cfg Asm' classes_numbers g = get_model Cfg Asm classes_numbers g).
Proof.
  intros Hn Hsz.
  assert (Hfail : H < 193 \/ W < 193 \/ classes_numbers < 0 ->
                  fails (get_model Cfg Asm classes_numbers) g).
  { intros Hcase. unfold fails.
    rewrite get_model_google_net by exact Hn. rewrite Hsz.
    apply fails_bind_now. apply google_net_fails_otherwise. exact Hcase. }
  split; [|split; [|split]].
  - intros HH HW Hc. rewrite <- Hsz.
    apply get_model_google_net_returns; rewrite ?Hsz; cbn; try assumption. lia.
  - exact Hfail.
  - intros model input_size g' Hg.
    destruct (get_model_google_net_inv _ _ _ _ _ _ _ Hn Hg) as (-> & _).
    split; [exact Hsz|].
    destruct (Z_lt_le_dec H 193) as [Hs|?];
      [|destruct (Z_lt_le_dec W 193) as [Hs|?]; [|lia]];
      exfalso; destruct Hfail as [e He]; try lia; congruence.
  - intros Asm'. rewrite !get_model_google_net by exact Hn. reflexivity.
Qed.

Lemma get_model_google_net_outcome_witness :
  (exists model g',
      get_model (Cfg_example "GoogLeNet") Asm_example 10 [] = OK (model, (224, 224), g'))
  /\ fails (get_model (Cfg_32x32 "GoogLeNet") Asm_example 10) [].
Proof.
  split.
  - apply (proj1 (get_model_google_net_outcome
                    (Cfg_example "GoogLeNet") Asm_example 10 [] 224 224
                    eq_refl eq_refl));
      lia.
  - apply (proj1 (proj2 (get_model_google_net_outcome
                           (Cfg_32x32 "GoogLeNet") Asm_example 10 [] 32 32
                           eq_refl eq_refl))).
    lia.
Defined.

(** X11.  On the GoogLeNet branch the compile recipe names exactly the
    outputs the assembler created: the keys of the loss dictionary and of
    the metrics dictionary are the model's output names, in output order,
    and the list of loss weights has one entry per output. *)
Theorem get_model_recipe_matches_outputs Cfg Asm classes_numbers g model input_size g' :
  MODEL_TYPE Cfg = "GoogLeNet" ->
  get_model Cfg Asm classes_numbers g = OK (model, input_size, g') ->
  exists c losses metrics weights,
    compiled model = Some c /\
    c_loss c = LossDict losses /\
    c_metrics c = MetricsDict metrics /\
    c_loss_weights c = Some weights /\
    map (fun p => Some (fst p)) losses = output_names model /\
    map (fun p => Some (fst p)) metrics = output_names model /\
    List.length weights = List.length (outputs model).
Proof.
  intros Hn Hg.
  destruct (get_model_google_net_inv _ _ _ _ _ _ _ Hn Hg)
    as (_ & m & -> & _ & HN & HS & _).
  do 4 eexists. repeat (split; [reflexivity|]).
  change (output_names (google_net_compile m)) with (output_names m).
  change (outputs (google_net_compile m)) with (outputs m).
  rewrite HN. repeat split.
  rewrite <- (length_map kt_shape), HS. reflexivity.
Qed.

Lemma get_model_recipe_matches_outputs_witness :
  exists model g' c weights,
    get_model (Cfg_example "GoogLeNet") Asm_example 10 [] = OK (model, (224, 224), g') /\
    compiled model = Some c /\
    c_loss_weights c = Some weights /\
    List.length weights = List.length (outputs model).
Proof.
  destruct (get_model_google_net_returns (Cfg_example "GoogLeNet") Asm_example 10 []
                                         eq_refl)
    as (model & g' & Hg); [cbn; lia | cbn; lia | lia |].
  destruct (get_model_recipe_matches_outputs
              (Cfg_example "GoogLeNet") Asm_example 10 [] model (224, 224) g'
              eq_refl Hg)
    as (c & losses & metrics & weights & Hc & _ & _ & Hw & _ & _ & Hlen).
  exists model, g', c, weights. auto.
Defined.

Lemma assembler_for_cases Asm name assemble :
  assembler_for Asm name = Some assemble ->
  (name = "ResNet50" /\ assemble = res_net50 Asm) \/
  (name = "MobileNetV1" /\ assemble = mobile_net_v1 Asm) \/
  (name = "MobileNetV2" /\ assemble = mobile_net_v2 Asm) \/
  (name = "VGG16" /\ assemble = vgg16 Asm) \/
  (name = "VGG13" /\ assemble = vgg13 Asm) \/
  (name = "VGG11" /\ assemble = vgg11 Asm).
Proof.
  unfold assembler_for.
  repeat match goal with
         | |- context [String.eqb name ?s] =>
             destruct (String.eqb_spec name s);
             [intros E; inversion E; subst; tauto|]
         end.
  discriminate.
Qed.

(** X12.  For a single-output model name, [get_model] runs the assembler of
    that name on the resolution [Cfg] declares for it: if the assembler
    raises, [get_model] raises the same exception; if it returns a graph,
    [get_model] returns that graph, its inputs and outputs untouched,
    compiled with one categorical cross-entropy loss, the accuracy metric,
    no loss weights and the optimizer sgd for MobileNetV2, adam for the
    others. *)
Theorem get_model_single_output Cfg Asm classes_numbers g assemble :
  assembler_for Asm (MODEL_TYPE Cfg) = Some assemble ->
  get_model Cfg Asm classes_numbers g =
  match assemble (declared_input_size Cfg) classes_numbers g with
  | OK (m, g') =>
      OK (single_output_compile (MODEL_TYPE Cfg) m, declared_input_size Cfg, g')
  | Raise e => Raise e
  end.
Proof.
  intros Ha.
  destruct (assembler_for_cases _ _ _ Ha)
    as [[Hn ->]|[[Hn ->]|[[Hn ->]|[[Hn ->]|[[Hn ->]|[Hn ->]]]]]];
    unfold get_model, declared_input_size, single_output_compile, optimizer_for;
    rewrite Hn; cbn [String.eqb Ascii.eqb Bool.eqb]; unfold bind;
    match goal with |- context [?f ?sz classes_numbers g] =>
      destruct (f sz classes_numbers g) as [[m g'] | e] end;
    reflexivity.
Qed.

Lemma get_model_single_output_witness :
  exists m g',
    get_model (Cfg_example "MobileNetV2") Asm_example 10 []
    = OK (single_output_compile "MobileNetV2" m, (32, 32), g') /\
    List.length (outputs (single_output_compile "MobileNetV2" m)) = 1%nat.
Proof.
  pose proof (get_model_single_output (Cfg_example "MobileNetV2") Asm_example 10 []
                                      one_output_net eq_refl) as H.
  destruct (one_output_net (declared_input_size (Cfg_example "MobileNetV2")) 10 [])
    as [[m g'] | e] eqn:E; [|vm_compute in E; discriminate].
  exists m, g'. split; [exact H|].
  vm_compute in E. inversion E. reflexivity.
Defined.

(** X13.  For a supported model name, [load_model] does what the framework
    loader does: it raises the loader's exception when the loader raises,
    and otherwise returns the loader's graph as it is (not compiled again,
    its input shape not compared with anything) together with the
    resolution [Cfg] declares for the name. *)
Theorem load_model_outcome Cfg loader model_path g :
  In (MODEL_TYPE Cfg) supported ->
  load_model Cfg loader model_path g =
  match loader model_path g with
  | OK (m, g') => OK (m, declared_input_size Cfg, g')
  | Raise e => Raise e
  end.
Proof.
  intros Hsup. rewrite load_model_supported by exact Hsup.
  unfold bind. destruct (loader model_path g) as [[m g'] | e]; reflexivity.
Qed.

Lemma load_model_outcome_witness :
  load_model (Cfg_example "VGG16") (fun _ => raise (Exception "No file or directory found"))
             "./models/cifar-10/VGG16.h5" []
  = Raise (Exception "No file or directory found").
Proof.
  rewrite (load_model_outcome (Cfg_example "VGG16")); [reflexivity|].
  cbn. auto 10.
Defined.

End DispatchFacts.

(** ** More on the inference driver *)

Module DriverFacts.
Import Numpy Config InferTflite InferExamples InferFacts.
Open Scope result_scope.

Lemma py_index_In {B} (l : list B) i b : py_index l i = OK b -> In b l.
Proof.
  unfold py_index.
  destruct ((0 <=? _) && _); [|discriminate].
  destruct (nth_error l _) as [b'|] eqn:E; [|discriminate].
  intros H. inversion H; subst. eapply nth_error_In. exact E.
Qed.

Lemma py_index_nil {B} i : exists msg, @py_index B [] i = Raise (IndexError msg).
Proof.
  unfold py_index. cbn [List.length Z.of_nat].
  destruct ((0 <=? _) && _) eqn:E; [|eexists; reflexivity].
  cbn. destruct (Z.to_nat _); eexists; reflexivity.
Qed.

Lemma rbind_inv {A B} (m : result A) (f : A -> result B) b :
  rbind m f = OK b -> exists a, m = OK a /\ f a = OK b.
Proof. destruct m as [a|e]; [|discriminate]. intros H. exists a. auto. Qed.

(** X14.  Whatever the interpreter, its output tensor and the image
    loader, a label the script reports is an entry of
    [CIFAR_10_CLASS_NAMES]; with an empty class table it reports none. *)
Theorem label_is_a_class_name {A} (gtb : A -> A -> bool) Cfg interpreter load_images
        astype_float32 l :
  label A gtb Cfg interpreter load_images astype_float32 = OK l ->
  In l (CIFAR_10_CLASS_NAMES Cfg).
Proof.
  unfold label. intros H.
  repeat (apply rbind_inv in H; destruct H as (? & _ & H)).
  eapply py_index_In. exact H.
Qed.

Lemma label_is_a_class_name_witness :
  In "airplane" (CIFAR_10_CLASS_NAMES (Cfg_example "GoogLeNet")).
Proof.
  apply (label_is_a_class_name Qgtb (Cfg_example "GoogLeNet")
                               (interpreter_writing output_1x10)
                               (fun _ _ => Scalar 0%Q) (fun x => x)).
  reflexivity.
Defined.

(** X15.  When the primary output tensor has shape (1, n) with n >= 1, the
    label does not depend on the probabilities: it is the first entry of
    the class table, for every row of probabilities. *)
Theorem label_ignores_the_probabilities {A} (gtb : A -> A -> bool) Cfg interpreter
        load_images astype_float32 input_0 output_0 p row first_name names :
  py_index (get_input_details A interpreter) 0 = OK input_0 ->
  py_index (get_output_details A interpreter) 0 = OK output_0 ->
  invoke A interpreter
         (set_tensor A (allocate_tensors A interpreter) (index input_0)
                     (astype_float32
                        (load_images ["./samples/11.png"]
                                     (firstn 2 (skipn 1 (shape input_0))))))
         (index output_0)
  = Some (Array [Array (map Scalar (p :: row))]) ->
  CIFAR_10_CLASS_NAMES Cfg = first_name :: names ->
  label A gtb Cfg interpreter load_images astype_float32 = OK first_name.
Proof.
  intros Hin Hout Hrun Hnames.
  rewrite (label_is_first_class gtb Cfg interpreter load_images astype_float32
                                input_0 output_0 p (map Scalar row) [] Hin Hout Hrun).
  rewrite Hnames. reflexivity.
Qed.

Lemma label_ignores_the_probabilities_witness :
  label Q Qgtb (Cfg_example "GoogLeNet")
        (interpreter_writing (Array [Array (map Scalar [0; 0; 0; 0; 0; 0; 0; 0; 0; 1]%Q)]))
        (fun _ _ => Scalar 0%Q) (fun x => x)
  = OK "airplane".
Proof.
  apply (label_ignores_the_probabilities
           Qgtb (Cfg_example "GoogLeNet")
           (interpreter_writing (Array [Array (map Scalar [0; 0; 0; 0; 0; 0; 0; 0; 0; 1]%Q)]))
           (fun _ _ => Scalar 0%Q) (fun x => x)
           (mkDetails 0 [1; 32; 32; 3]) (mkDetails 1 [1; 10])
           0%Q [0; 0; 0; 0; 0; 0; 0; 0; 1]%Q "airplane"
           ["automobile"; "bird"; "cat"; "deer"; "dog"; "frog"; "horse"; "ship"; "truck"]);
    reflexivity.
Defined.

(** X16.  The script raises [IndexError], and reports nothing, when the
    interpreter has no input descriptor, when it has no output descriptor,
    and when the primary output tensor is a plain vector of probabilities
    (shape (n,)): [output_data[0]] is then a scalar and cannot be indexed
    again. *)
Theorem label_raises_index_error {A} (gtb : A -> A -> bool) Cfg interpreter load_images
        astype_float32 :
  (get_input_details A interpreter = [] ->
   exists msg, label A gtb Cfg interpreter load_images astype_float32
               = Raise (IndexError msg))
  /\ (forall input_0,
        py_index (get_input_details A interpreter) 0 = OK input_0 ->
        get_output_details A interpreter = [] ->
        exists msg, label A gtb Cfg interpreter load_images astype_float32
                    = Raise (IndexError msg))
  /\ (forall input_0 output_0 probabilities,
        py_index (get_input_details A interpreter) 0 = OK input_0 ->
        py_index (get_output_details A interpreter) 0 = OK output_0 ->
        invoke A interpreter
               (set_tensor A (allocate_tensors A interpreter) (index input_0)
                           (astype_float32
                              (load_images ["./samples/11.png"]
                                           (firstn 2 (skipn 1 (shape input_0))))))
               (index output_0)
        = Some (Array (map Scalar probabilities)) ->
        exists msg, label A gtb Cfg interpreter load_images astype_float32
                    = Raise (IndexError msg)).
Proof.
  split; [|split].
  - intros Hin. unfold label. rewrite Hin.
    destruct (@py_index_nil TensorDetails 0) as [msg ->]. exists msg. reflexivity.
  - intros input_0 Hin Hout. unfold label. rewrite Hin. cbn [rbind]. rewrite Hout.
    destruct (@py_index_nil TensorDetails 0) as [msg ->]. exists msg. reflexivity.
  - intros input_0 output_0 probabilities Hin Hout Hrun.
    unfold label. rewrite Hin. cbn [rbind]. rewrite Hout. cbn [rbind].
    unfold get_tensor. rewrite Hrun. cbn [rbind].
    destruct probabilities as [|p ps]; eexists; reflexivity.
Qed.

Lemma label_raises_index_error_witness :
  exists msg,
    label Q Qgtb (Cfg_example "GoogLeNet")
          (interpreter_writing (Array (map Scalar probabilities)))
          (fun _ _ => Scalar 0%Q) (fun x => x)
    = Raise (IndexError msg).
Proof.
  destruct (label_raises_index_error
              Qgtb (Cfg_example "GoogLeNet")
              (interpreter_writing (Array (map Scalar probabilities)))
              (fun _ _ => Scalar 0%Q) (fun x => x)) as (_ & _ & Hvec).
  apply (Hvec (mkDetails 0 [1; 32; 32; 3]) (mkDetails 1 [1; 10]) probabilities);
    reflexivity.
Defined.

End DriverFacts.


(** ** The feature maps along the trunk *)

Module StageFacts.
Import Keras GoogLeNet Outcomes GraphSpec WiringSpec.
Import KerasFacts GoogLeNetFacts AssemblerFacts WiringFacts.
Open Scope keras_scope.

Lemma returns_in_bind {A B} (m : K A) (f : A -> K B) g
      (P : A -> Graph -> Prop) (Q : B -> Graph -> Prop) :
  returns_in m g P ->
  (forall a g', P a g' -> returns_in (f a) g' Q) ->
  returns_in (bind m f) g Q.
Proof.
  intros (a & g' & Hm & HP) Hf.
  destruct (Hf a g' HP) as (b & g'' & Hb & HQ).
  exists b, g''. unfold bind. rewrite Hm. split; assumption.
Qed.

Lemma grown_app g0 k g new n :
  grown g0 k g -> List.length new = n -> grown g0 (k + n) (g ++ new).
Proof.
  intros (pre & -> & Hk) Hn. exists (pre ++ new).
  rewrite app_assoc, length_app, Hk, Hn. auto.
Qed.

Lemma grown_length g0 k g : grown g0 k g -> List.length g = (List.length g0 + k)%nat.
Proof. intros (pre & -> & Hk). rewrite length_app, Hk. reflexivity. Qed.

Lemma step_layer g0 k g l ins m P :
  grown g0 k g -> returns m g P -> emits l ins m ->
  returns_in m g (left_by g0 k 1 g (fun Y => P Y /\ kt_layer Y = l)).
Proof.
  intros Hg (Y & g' & Hm & HP) He.
  destruct (He _ _ _ Hm) as (-> & Hid & HL & _).
  exists Y, (g ++ [Y]). split; [exact Hm|].
  unfold left_by. split; [auto|]. split.
  - rewrite Hid, (grown_length _ _ _ Hg). lia.
  - split; [apply in_or_app; right; left; reflexivity|].
    split; [apply incl_appl, incl_refl|].
    apply grown_app; [exact Hg | reflexivity].
Qed.

Lemma _inception_block_last X f1 f3 f5 r3 r5 pp k1 k3 k5 ps init g Y g' :
  _inception_block X (f1, f3, f5) (r3, r5, pp) (k1, k3, k5) ps init g = OK (Y, g') ->
  exists new,
    g' = g ++ new ++ [Y] /\ List.length new = 7%nat /\
    kt_id Y = (List.length g + 7)%nat /\ kt_layer Y = LConcatenate (-1).
Proof.
  unfold _inception_block. intros H.
  TopologyFacts.node H Conv2D_emits. TopologyFacts.node H Conv2D_emits.
  TopologyFacts.node H Conv2D_emits. TopologyFacts.node H Conv2D_emits.
  TopologyFacts.node H Conv2D_emits. TopologyFacts.node H MaxPooling2D_emits.
  TopologyFacts.node H Conv2D_emits. TopologyFacts.node H concatenate_emits.
  inversion H; subst; clear H.
  exists [N; N0; N1; N2; N3; N4; N5].
  split; [repeat rewrite <- app_assoc; reflexivity|].
  split; [reflexivity|]. split; [|assumption].
  match goal with Hid : kt_id Y = _ |- _ => rewrite Hid end.
  repeat rewrite length_app. cbn [List.length]. lia.
Qed.

Lemma step_inception g0 k g X f1 f3 f5 r3 r5 pp b h w c :
  grown g0 k g ->
  kt_shape X = [b; Some h; Some w; Some c] ->
  0 < h -> 0 < w ->
  0 < f1 -> 0 < f3 -> 0 < f5 -> 0 < r3 -> 0 < r5 -> 0 < pp ->
  returns_in (inception X (f1, f3, f5) (r3, r5, pp)) g
             (left_by g0 k 8 g
                      (fun Y => kt_shape Y = [b; Some h; Some w; Some (f1 + f3 + f5 + pp)]
                                /\ kt_layer Y = LConcatenate (-1))).
Proof.
  intros Hg HX Hh Hw F1 F3 F5 R3 R5 PP.
  destruct (inception_returns X g f1 f3 f5 r3 r5 pp b h w c) as (Y & g' & Hm & HS);
    try assumption.
  pose proof Hm as Hm'. unfold inception, default_kernel_size in Hm'.
  apply _inception_block_last in Hm'. destruct Hm' as (new & -> & Hlen & Hid & HL).
  exists Y, (g ++ new ++ [Y]). split; [exact Hm|].
  unfold left_by. split; [auto|]. split.
  - rewrite Hid, (grown_length _ _ _ Hg). lia.
  - split; [apply in_or_app; right; apply in_or_app; right; left; reflexivity|].
    split; [apply incl_appl, incl_refl|].
    apply grown_app; [exact Hg|]. rewrite length_app, Hlen. reflexivity.
Qed.

Lemma step_auxiliary g0 k g self X name init b h w c :
  grown g0 k g ->
  kt_shape X = [b; Some h; Some w; Some c] ->
  5 <= h -> 5 <= w -> 0 <= classes self ->
  returns_in (_auxiliary_classifier self X name init) g
             (fun Y g' => incl g g' /\ grown g0 (k + 6) g').
Proof.
  intros Hg HX Hh Hw Hc.
  destruct (_auxiliary_classifier_returns self X name init g b h w c)
    as (Y & g' & Hm & _); try assumption.
  destruct (_auxiliary_classifier_appends self X name init g Y g' Hm)
    as (new & -> & Hlen).
  exists Y, (g ++ new). split; [exact Hm|].
  split; [apply incl_appl, incl_refl|].
  apply grown_app; assumption.
Qed.

Lemma grown_refl g0 : grown g0 0 g0.
Proof. exists []. rewrite app_nil_r. auto. Qed.

Ltac carry Hincl :=
  repeat match goal with
         | HI : In _ ?g, Hi : incl ?g _ |- _ =>
             match Hi with Hincl => apply Hincl in HI end
         end.

Ltac stage ret_lem emit_lem Y :=
  eapply returns_in_bind;
  [ eapply step_layer;
    [ eassumption
    | eapply ret_lem; try eassumption; try reflexivity; try positive
    | apply emit_lem ]
  | let g' := fresh "g" in
    let HS := fresh "HS" Y in
    let HL := fresh "HL" Y in
    let Hid := fresh "Hid" Y in
    let HI := fresh "HI" Y in
    let Hincl := fresh "Hincl" in
    let Hg := fresh "Hg" in
    intros Y g' (((HS & _) & HL) & Hid & HI & Hincl & Hg);
    cbn [map prod_dims] in HS; carry Hincl; clear Hincl ].

Ltac stage_block Y :=
  eapply returns_in_bind;
  [ eapply step_inception; try eassumption; try positive
  | let g' := fresh "g" in
    let HS := fresh "HS" Y in
    let HL := fresh "HL" Y in
    let Hid := fresh "Hid" Y in
    let HI := fresh "HI" Y in
    let Hincl := fresh "Hincl" in
    let Hg := fresh "Hg" in
    intros Y g' ((HS & HL) & Hid & HI & Hincl & Hg);
    carry Hincl; clear Hincl ].

Ltac stage_head :=
  eapply returns_in_bind;
  [ eapply step_auxiliary; try eassumption; try positive
  | let Y := fresh "A" in
    let g' := fresh "g" in
    let Hincl := fresh "Hincl" in
    let Hg := fresh "Hg" in
    intros Y g' (Hincl & Hg);
    carry Hincl; clear Hincl ].

(** X17.  For an input of at least 193x193 and a class count that is not
    negative, the graph [google_net] leaves holds these feature maps: the
    output of inception 3b (node 21 of the assembly) has 480 channels at
    1/8 of the input size, the output of inception 4e (node 74) 832
    channels at 1/16, the output of inception 5b (node 91) 1024 channels at
    1/32 (all rounded up), and the flattened vector fed to the classifier
    (node 93) has (ceil(H/32) - 6) * (ceil(W/32) - 6) * 1024 entries. *)
Theorem google_net_trunk H W num_classes g :
  193 <= H -> 193 <= W -> 0 <= num_classes ->
  returns_in (google_net (__init__ (H, W) num_classes)) g
    (fun m g' =>
       exists stage3 stage4 stage5 features,
         (In stage3 g' /\ In stage4 g' /\ In stage5 g' /\ In features g') /\
         (kt_id stage3 = (List.length g + 21)%nat /\
          kt_layer stage3 = LConcatenate (-1) /\
          kt_shape stage3 = [None; Some (halve (halve (halve H)));
                             Some (halve (halve (halve W))); Some 480]) /\
         (kt_id stage4 = (List.length g + 74)%nat /\
          kt_layer stage4 = LConcatenate (-1) /\
          kt_shape stage4 = [None; Some (reduced_16 H); Some (reduced_16 W); Some 832]) /\
         (kt_id stage5 = (List.length g + 91)%nat /\
          kt_layer stage5 = LConcatenate (-1) /\
          kt_shape stage5 = [None; Some (reduced_32 H); Some (reduced_32 W); Some 1024]) /\
         (kt_id features = (List.length g + 93)%nat /\
          kt_layer features = LFlatten /\
          kt_shape features =
            [None; Some ((reduced_32 H - 6) * (reduced_32 W - 6) * 1024)])).
Proof.
  intros HH HW Hc.
  assert (H32 := proj2 (reduced_32_ge_7 H) HH).
  assert (W32 := proj2 (reduced_32_ge_7 W) HW).
  assert (H16 := reduced_16_ge_5 H H32).
  assert (W16 := reduced_16_ge_5 W W32).
  assert (H0 : 0 < H) by lia. assert (W0 : 0 < W) by lia.
  pose proof (grown_refl g) as Hg0.
  unfold reduced_32, reduced_16 in *.
  unfold google_net. cbn [input_shape classes fst snd].
  eapply returns_in_bind.
  { eapply step_layer;
      [exact Hg0 | apply Input_returns, nonneg_dims; assumption | apply Input_emits]. }
  intros X_input g1 (((HSin & _) & _) & _ & _ & _ & Hg1). cbn [map] in HSin.
  stage Conv2D_halving_returns Conv2D_emits L1.
  stage MaxPooling2D_halving_returns MaxPooling2D_emits L2.
  stage Conv2D_1by1_valid_returns Conv2D_emits L3.
  stage Conv2D_same_returns Conv2D_emits L4.
  stage MaxPooling2D_halving_returns MaxPooling2D_emits L5.
  stage_block I3a. stage_block I3b.
  stage MaxPooling2D_halving_returns MaxPooling2D_emits L8.
  stage_block I4a. stage_head.
  stage_block I4b. stage_block I4c. stage_block I4d. stage_head.
  stage_block I4e.
  stage MaxPooling2D_halving_returns MaxPooling2D_emits L14.
  stage_block I5a. stage_block I5b.
  stage AveragePooling2D_valid_returns AveragePooling2D_emits L17.
  stage Flatten_returns Flatten_emits F.
  stage Dropout_returns Dropout_emits L18.
  stage Dense_returns Dense_emits L19.
  { rewrite HSL18. exact HSF. }
  stage Dense_returns Dense_emits L20.
  eexists; eexists. split; [reflexivity|].
  exists I3b, I4e, I5b, F.
  split; [auto|].
  split; [split; [rewrite HidI3b; lia | split; [exact HLI3b | exact HSI3b]]|].
  split; [split; [rewrite HidI4e; lia | split; [exact HLI4e | exact HSI4e]]|].
  split; [split; [rewrite HidI5b; lia | split; [exact HLI5b | exact HSI5b]]|].
  split; [rewrite HidF; lia | split; [exact HLF|]].
  rewrite HSF. rewrite !Z.div_1_r.
  match goal with
  | |- [None; Some ?a] = [None; Some ?b] => replace a with b by ring
  end.
  reflexivity.
Qed.

Lemma google_net_trunk_witness :
  exists m g' stage5 features,
    google_net (__init__ (224, 224) 10) [] = OK (m, g') /\
    In stage5 g' /\ kt_shape stage5 = [None; Some 7; Some 7; Some 1024] /\
    In features g' /\ kt_shape features = [None; Some 1024].
Proof.
  destruct (google_net_trunk 224 224 10 []) as (m & g' & Hm & Hst); try lia.
  destruct Hst as (s3 & s4 & s5 & f & (_ & _ & I5 & IF) & _ & _ & (_ & _ & S5)
                      & (_ & _ & SF)).
  exists m, g', s5, f. repeat (split; [assumption|]). exact SF.
Defined.

End StageFacts.


(** ** The graph interface of the factory *)

Module InterfaceFacts.
Import Keras Config ModelFactory Outcomes GraphSpec FactorySpec DispatchSpec.
Import KerasFacts AssemblerFacts FactoryFacts DispatchFacts.
Open Scope keras_scope.

(** A single-output branch runs its assembler and compiles what it
    returns. *)
Lemma get_model_dispatch Cfg Asm classes_numbers g assemble :
  assembler_for Asm (MODEL_TYPE Cfg) = Some assemble ->
  get_model Cfg Asm classes_numbers g =
  match assemble (declared_input_size Cfg) classes_numbers g with
  | OK (m, g') =>
      OK (single_output_compile (MODEL_TYPE Cfg) m, declared_input_size Cfg, g')
  | Raise e => Raise e
  end.
Proof.
  intros Ha.
  destruct (assembler_for_cases _ _ _ Ha)
    as [[Hn ->]|[[Hn ->]|[[Hn ->]|[[Hn ->]|[[Hn ->]|[Hn ->]]]]]];
    unfold get_model, declared_input_size, single_output_compile, optimizer_for;
    rewrite Hn; cbn [String.eqb Ascii.eqb Bool.eqb]; unfold bind;
    match goal with |- context [?f ?sz classes_numbers g] =>
      destruct (f sz classes_numbers g) as [[m g'] | e] end;
    reflexivity.
Qed.

Lemma assembler_for_supported Asm name :
  In name supported -> name <> "GoogLeNet" ->
  exists assemble, assembler_for Asm name = Some assemble.
Proof.
  intros Hsup Hne.
  destruct (supported_cases _ Hsup) as [Hn|[Hn|[Hn|[Hn|[Hn|[Hn|Hn]]]]]];
    try contradiction; subst name; eexists; reflexivity.
Qed.

Lemma get_model_single_output_interface Cfg Asm classes_numbers g assemble
      model input_size g' :
  MODEL_TYPE Cfg <> "GoogLeNet" ->
  assembler_for Asm (MODEL_TYPE Cfg) = Some assemble ->
  single_output_spec assemble ->
  get_model Cfg Asm classes_numbers g = OK (model, input_size, g') ->
  graph_interface Cfg model input_size.
Proof.
  intros Hne Ha Hspec Hg.
  rewrite (get_model_dispatch _ _ _ _ _ Ha) in Hg.
  destruct (assemble (declared_input_size Cfg) classes_numbers g)
    as [[m g1] | e] eqn:Hm; [|discriminate].
  injection Hg as <- <- <-.
  destruct (Hspec _ _ _ _ _ Hm) as [Hin Hout].
  unfold graph_interface.
  split; [reflexivity|]. split; [exact Hin|].
  split; [intros Hn; contradiction | intros _; exact Hout].
Qed.

Lemma get_model_google_net_interface Cfg Asm classes_numbers g model input_size g' :
  MODEL_TYPE Cfg = "GoogLeNet" ->
  get_model Cfg Asm classes_numbers g = OK (model, input_size, g') ->
  graph_interface Cfg model input_size.
Proof.
  intros Hn Hg.
  destruct (get_model_google_net_inv _ _ _ _ _ _ _ Hn Hg)
    as (Hsz & m & -> & (X_input & HI & _ & HS) & HN & _).
  unfold graph_interface. rewrite declared_google_net by exact Hn.
  split; [exact Hsz|]. split.
  - exists X_input. unfold height, width. rewrite HS. cbn. auto.
  - split; [intros _; exact HN | intros Hne; contradiction].
Qed.

(** C4 as stated fails: with the supported name GoogLeNet and a declared
    input shape of 32x32, [get_model] returns no graph. *)
Lemma get_model_raises_on_small_declared_shape :
  In (MODEL_TYPE (Cfg_32x32 "GoogLeNet")) supported /\
  ~ exists model input_size g',
      get_model (Cfg_32x32 "GoogLeNet") Asm_example 10 [] = OK (model, input_size, g').
Proof.
  split; [cbn; auto|].
  intros (model & input_size & g' & H). vm_compute in H. discriminate.
Qed.

(** C4, as the code has it.  For every supported model name, [get_model]
    returns exactly when the assembler it selects returns, and raises that
    assembler's exception otherwise.  For GoogLeNet it returns
    [google_net]'s graph, compiled, together with the resolution [Cfg]
    declares; that graph exists for a declared resolution of at least
    193x193 and a positive class count, it has a single input node of the
    declared resolution and its outputs are the three nodes [output],
    [output_aux_1], [output_aux_2].  For a single-output name it returns
    the selected assembler's graph, compiled, together with the declared
    resolution; when that assembler builds what the spec says it builds
    (one input node of the resolution it is given, one output node), the
    graph returned has a single input node of the declared resolution and
    one output. *)
Theorem get_model_interface Cfg Asm classes_numbers g :
  In (MODEL_TYPE Cfg) supported ->
  (MODEL_TYPE Cfg = "GoogLeNet" ->
   get_model Cfg Asm classes_numbers g =
   match GoogLeNet.google_net
           (GoogLeNet.__init__ (declared_input_size Cfg) classes_numbers) g with
   | OK (m, g') => OK (google_net_compile m, declared_input_size Cfg, g')
   | Raise e => Raise e
   end
   /\ (193 <= fst (declared_input_size Cfg) ->
       193 <= snd (declared_input_size Cfg) ->
       0 < classes_numbers ->
       exists model g',
         get_model Cfg Asm classes_numbers g
         = OK (model, declared_input_size Cfg, g'))
   /\ (forall model input_size g',
          get_model Cfg Asm classes_numbers g = OK (model, input_size, g') ->
          graph_interface Cfg model input_size))
  /\ (MODEL_TYPE Cfg <> "GoogLeNet" ->
      exists assemble,
        assembler_for Asm (MODEL_TYPE Cfg) = Some assemble /\
        get_model Cfg Asm classes_numbers g =
        match assemble (declared_input_size Cfg) classes_numbers g with
        | OK (m, g') =>
            OK (single_output_compile (MODEL_TYPE Cfg) m, declared_input_size Cfg, g')
        | Raise e => Raise e
        end /\
        (single_output_spec assemble ->
         forall model input_size g',
           get_model Cfg Asm classes_numbers g = OK (model, input_size, g') ->
           graph_interface Cfg model input_size)).
Proof.
  intros Hsup. split.
  - intros Hn. split; [|split].
    + rewrite (declared_google_net _ Hn).
      rewrite get_model_google_net by exact Hn.
      destruct (GOOGLE_NET_INPUT_SIZE Cfg) as [H W]. unfold bind.
      destruct (GoogLeNet.google_net (GoogLeNet.__init__ (H, W) classes_numbers) g)
        as [[m g'] | e]; reflexivity.
    + rewrite (declared_google_net _ Hn). intros HH HW Hc.
      apply get_model_google_net_returns; try assumption. lia.
    + intros model input_size g' Hg.
      eapply get_model_google_net_interface; eassumption.
  - intros Hne.
    destruct (assembler_for_supported Asm _ Hsup Hne) as [assemble Ha].
    exists assemble. split; [exact Ha|]. split.
    + apply get_model_dispatch. exact Ha.
    + intros Hspec model input_size g' Hg.
      eapply get_model_single_output_interface; eassumption.
Qed.

Lemma get_model_interface_witness :
  (exists model g',
      get_model (Cfg_example "VGG16") Asm_example 10 [] = OK (model, (32, 32), g') /\
      graph_interface (Cfg_example "VGG16") model (32, 32))
  /\ (exists model g',
        get_model (Cfg_example "GoogLeNet") Asm_example 10 [] = OK (model, (224, 224), g') /\
        graph_interface (Cfg_example "GoogLeNet") model (224, 224)).
Proof.
  split.
  - destruct (get_model_interface (Cfg_example "VGG16") Asm_example 10 [])
      as (_ & Hsingle); [cbn; auto 10|].
    destruct Hsingle as (assemble & Ha & Heq & Hwhat); [discriminate|].
    cbn in Ha. injection Ha as <-.
    destruct (one_output_net (declared_input_size (Cfg_example "VGG16")) 10 [])
      as [[m g'] | e] eqn:E; [|vm_compute in E; discriminate].
    exists (single_output_compile "VGG16" m), g'.
    split; [exact Heq|]. apply (Hwhat one_output_net_spec _ _ _ Heq).
  - destruct (get_model_interface (Cfg_example "GoogLeNet") Asm_example 10 [])
      as (Hgoogle & _); [cbn; auto 10|].
    destruct (Hgoogle eq_refl) as (_ & Hret & Hwhat).
    destruct Hret as (model & g' & Hg); [cbn; lia | cbn; lia | lia |].
    exists model, g'. split; [exact Hg|]. apply (Hwhat _ _ _ Hg).
Defined.

End InterfaceFacts.
